(** * SSD1306 OLED driver: framebuffer, drawing primitives and bus protocol

    A shallow embedding of [Src/SSD1306.cpp], [Inc/SSD1306.hpp] and
    [Hardware/SSD1306_hardware.cpp].  The C++ object becomes a record, every
    member function a computation in a small state-and-fault monad, and the
    I2C peripheral behind [conn] is represented by the list of transfers the
    driver has requested from it. *)

From Stdlib Require Import ZArith List Lia Bool.
From stdpp Require Import base list.

Local Open Scope Z_scope.

(** ** Fixed-width integers *)

(** Conversion to [uint8_t] and [uint16_t]. *)
Definition u8 (z : Z) : Z := z mod 256.
Definition u16 (z : Z) : Z := z mod 65536.

Definition is_u8 (z : Z) : Prop := 0 <= z < 256.

(** ** Data model *)

Module SSD1306.

(** [enum HardwareConf : uint8_t]. *)
Inductive HardwareConf : Set :=
| SEQ_NOREMAP
| SEQ_REMAP
| ALT_NOREMAP
| ALT_REMAP.

Definition HardwareConf_value (h : HardwareConf) : Z :=
  match h with
  | SEQ_NOREMAP => 0x02
  | SEQ_REMAP => 0x22
  | ALT_NOREMAP => 0x12
  | ALT_REMAP => 0x32
  end.

(** [enum Color : uint8_t { BLACK = 0, WHITE = 0xff }]. *)
Inductive Color : Set :=
| BLACK
| WHITE.

Definition Color_value (c : Color) : Z :=
  match c with
  | BLACK => 0
  | WHITE => 0xff
  end.

(** Modelled from the spec: [Fonts::FontDef] is declared in [fonts.h], which
    is not part of the sources at hand.  A font is a glyph width, a glyph
    height and a table of 16-bit row words; the glyph of character code [c]
    occupies the [FontHeight] rows starting at [(c - 32) * FontHeight]. *)
Record FontDef : Set := mkFont {
  FontWidth : Z;
  FontHeight : Z;
  data : list Z
}.

(** The anonymous struct behind [Coordinates]. *)
Record Cursor : Set := mkCursor {
  X : Z;
  Y : Z
}.

(** One call of [HAL_I2C_Mem_Write (conn, DevAddress, MemAddress, 1, pData,
    Size, 1000)]: the device address, the control byte, the array [pData]
    points into and the number of bytes requested from it. *)
Record Transfer : Set := mkTransfer {
  DevAddress : Z;
  MemAddress : Z;
  pData : list Z;
  Size : Z
}.

(** The bytes a transfer puts on the wire; there are none to speak of when
    the request is longer than the array it reads from. *)
Definition payload (t : Transfer) : option (list Z) :=
  if (0 <=? Size t) && (Size t <=? Z.of_nat (length (pData t)))
  then Some (take (Z.to_nat (Size t)) (pData t))
  else None.

(** The object's members.  [conn] stands for the peripheral pointed to, seen
    as the transfers carried out through it so far. *)
Record t : Set := mkSSD1306 {
  conn : list Transfer;
  height : Z;
  hard_conf : Z;
  address : Z;
  font : FontDef;
  buffer : list Z;
  isinitialized : bool;
  last_error : Z;
  Coordinates : Cursor
}.

Definition width : Z := 128.
Definition buffer_size : Z := 64 / 8 * 128.
Definition control_b_command : Z := 0x00.
Definition control_b_data : Z := 0x40.

Definition set_conn (v : list Transfer) (d : t) : t :=
  mkSSD1306 v (height d) (hard_conf d) (address d) (font d) (buffer d)
            (isinitialized d) (last_error d) (Coordinates d).

Definition set_font (v : FontDef) (d : t) : t :=
  mkSSD1306 (conn d) (height d) (hard_conf d) (address d) v (buffer d)
            (isinitialized d) (last_error d) (Coordinates d).

Definition set_buffer (v : list Z) (d : t) : t :=
  mkSSD1306 (conn d) (height d) (hard_conf d) (address d) (font d) v
            (isinitialized d) (last_error d) (Coordinates d).

Definition set_isinitialized (v : bool) (d : t) : t :=
  mkSSD1306 (conn d) (height d) (hard_conf d) (address d) (font d) (buffer d)
            v (last_error d) (Coordinates d).

Definition set_last_error (v : Z) (d : t) : t :=
  mkSSD1306 (conn d) (height d) (hard_conf d) (address d) (font d) (buffer d)
            (isinitialized d) v (Coordinates d).

Definition set_Coordinates (v : Cursor) (d : t) : t :=
  mkSSD1306 (conn d) (height d) (hard_conf d) (address d) (font d) (buffer d)
            (isinitialized d) (last_error d) v.

(** What the C++ types guarantee of an object: [height] is a [uint8_t] and
    [buffer] a [std::array<uint8_t, buffer_size>]. *)
Record typed (d : t) : Prop := mkTyped {
  typed_height : is_u8 (height d);
  typed_buffer : Z.of_nat (length (buffer d)) = buffer_size
}.

(** ** The monad of member functions

    A member function reads and updates the object; indexing outside an
    array has no defined result and is a fault. *)

Definition M (A : Type) : Type := t -> option (A * t).

Definition ret {A : Type} (a : A) : M A := fun d => Some (a, d).

Definition bind {A B : Type} (m : M A) (k : A -> M B) : M B :=
  fun d => match m d with
           | Some (a, d') => k a d'
           | None => None
           end.

Definition fault {A : Type} : M A := fun _ => None.

Definition gets {A : Type} (f : t -> A) : M A := fun d => Some (f d, d).

Definition modify (f : t -> t) : M unit := fun d => Some (tt, f d).

Declare Scope cpp_scope.
Delimit Scope cpp_scope with cpp.
Notation "x <- m ;; k" := (bind m (fun x => k))
  (at level 100, m at next level, right associativity) : cpp_scope.
Notation "m ;; k" := (bind m (fun _ => k))
  (at level 100, right associativity) : cpp_scope.
Local Open Scope cpp_scope.

(** [a[i]] on an array: a fault outside of it. *)
Definition array_get (a : list Z) (i : Z) : option Z :=
  if i <? 0 then None else a !! Z.to_nat i.

Definition lift {A : Type} (o : option A) : M A :=
  fun d => match o with
           | Some a => Some (a, d)
           | None => None
           end.

(** [for (uint8_t i = 0; i < bound; i++) body (i)], [bound] a [uint8_t]:
    the counter never wraps, the body runs for [i = 0 .. bound - 1]. *)
Fixpoint for_from (n : nat) (i : Z) (body : Z -> M unit) : M unit :=
  match n with
  | O => ret tt
  | S n' => body i ;; for_from n' (i + 1) body
  end.

Definition for_u8 (bound : Z) (body : Z -> M unit) : M unit :=
  for_from (Z.to_nat bound) 0 body.

(** ** Drawing primitives (no bus traffic) *)

(** The byte of the framebuffer that holds pixel [(x, y)]. *)
Definition pixel_index (x y : Z) : Z := x + width * (y / 8).

Definition Draw_Pixel (x y : Z) (c : Color) : M unit :=
  fun d =>
    if (x >=? width) || (y >=? height d) then
      (* Don't write outside the buffer *)
      Some (tt, d)
    else
      match array_get (buffer d) (pixel_index x y) with
      | None => None
      | Some b =>
          let b' :=
            match c with
            | WHITE => u8 (Z.lor b (u8 (Z.shiftl 1 (y mod 8))))
            | BLACK => u8 (Z.land b (u8 (Z.lnot (Z.shiftl 1 (y mod 8)))))
            end in
          Some (tt, set_buffer (<[Z.to_nat (pixel_index x y) := b']> (buffer d)) d)
      end.

Definition Fill (color : Color) : M unit :=
  match color with
  | BLACK =>
      modify (fun d =>
        set_buffer (map (fun _ => Color_value BLACK) (buffer d)) d)
  | WHITE =>
      modify (fun d =>
        set_buffer (map (fun _ => Color_value WHITE) (buffer d)) d)
  end.

Definition Clean : M unit := Fill BLACK.

Definition Draw_Line_H (x y width : Z) (c : Color) : M unit :=
  for_u8 width (fun i => Draw_Pixel (u8 (x + i)) y c).

Definition Draw_Line_V (x y height : Z) (c : Color) : M unit :=
  for_u8 height (fun i => Draw_Pixel x (u8 (y + i)) c).

Definition Draw_Square (x y x2 y2 : Z) (c : Color) : M unit :=
  Draw_Line_H x y (u8 (x2 - x + 1)) c ;;
  Draw_Line_H x y2 (u8 (x2 - x + 1)) c ;;
  Draw_Line_V x y (u8 (y2 - y + 1)) c ;;
  Draw_Line_V x2 y (u8 (y2 - y + 1)) c.

Definition Draw_Waveform (x y : Z) (buffer : list Z) (size : Z) (c : Color)
  : M unit :=
  for_u8 size (fun i =>
    s <- lift (array_get buffer i) ;;
    Draw_Pixel (u8 (i + x)) (u8 (y - s)) c).

(** [buffer[i] = image[i]] for [i < buffer_size]: the source must hold that
    many bytes. *)
Definition Draw_Image (image : list Z) : M unit :=
  fun d =>
    if Z.of_nat (length image) <? buffer_size then fault d
    else Some (tt, set_buffer (take (Z.to_nat buffer_size) image
                                 ++ drop (Z.to_nat buffer_size) (buffer d)) d).

Definition Set_Cursor (x y : Z) : M unit :=
  fun d =>
    let x := if x >=? width then width else x in
    let y := if y >=? height d then height d else y in
    Some (tt, set_Coordinates (mkCursor x y) d).

Definition Set_Font_size (f : FontDef) : M unit := modify (set_font f).

Definition IsInitialized : M bool := gets isinitialized.

Definition Get_Last_Error : M Z := gets last_error.

Definition Clean_Errors : M unit := modify (set_last_error 0).

(** [(row << x) & 0x8000] as a condition. *)
Definition glyph_bit (row x : Z) : bool :=
  negb (Z.land (Z.shiftl row x) 0x8000 =? 0).

Definition Write_Char (chr : Z) (color : Color) : M unit :=
  (fh <- gets (fun d => FontHeight (font d)) ;;
   for_u8 fh (fun y =>
     f <- gets font ;;
     row <- lift (array_get (data f) ((chr - 32) * FontHeight f + y)) ;;
     let row := u16 row in
     for_u8 (FontWidth f) (fun x =>
       p <- gets Coordinates ;;
       match color with
       | BLACK =>
           if glyph_bit row x
           then Draw_Pixel (u8 (X p + x)) (u8 (Y p + y)) BLACK
           else Draw_Pixel (u8 (X p + x)) (u8 (Y p + y)) WHITE
       | WHITE =>
           if glyph_bit row x
           then Draw_Pixel (u8 (X p + x)) (u8 (Y p + y)) WHITE
           else Draw_Pixel (u8 (X p + x)) (u8 (Y p + y)) BLACK
       end))) ;;
  modify (fun d =>
    set_Coordinates (mkCursor (u8 (X (Coordinates d) + FontWidth (font d)))
                              (Y (Coordinates d))) d).

(** [str] holds the characters up to, and without, the terminating zero. *)
Fixpoint Write_String_with (color : Color) (str : list Z) : M unit :=
  match str with
  | [] => ret tt
  | c :: rest =>
      if c =? 0 then ret tt
      else Write_Char c color ;; Write_String_with color rest
  end.

Definition Write_String (str : list Z) : M unit := Write_String_with WHITE str.

Definition Write_String_Inverted (str : list Z) : M unit :=
  Write_String_with BLACK str.

(** ** The bus: [Hardware/SSD1306_hardware.cpp] *)

Section Hardware.

(** The ST HAL is not part of the sources: [HAL_I2C_Mem_Write (hi2c,
    DevAddress, MemAddress, MemAddSize, pData, Size, Timeout)] is taken as a
    parameter giving the status code the peripheral answers with. *)
Variable HAL_I2C_Mem_Write :
  list Transfer -> Z -> Z -> Z -> list Z -> Z -> Z -> Z.

Definition Write_Command (command : Z) : M unit :=
  fun d =>
    let temp :=
      HAL_I2C_Mem_Write (conn d) (address d) control_b_command 1 [command]
                        1 1000 in
    let d' :=
      set_conn (conn d ++ [mkTransfer (address d) control_b_command [command] 1])
               d in
    Some (tt, if negb (temp =? 0) then set_last_error temp d' else d').

Definition Write_Data (data : list Z) : M unit :=
  fun d =>
    let temp :=
      HAL_I2C_Mem_Write (conn d) (address d) control_b_data 1 data
                        (height d * width / 8) 1000 in
    let d' :=
      set_conn (conn d ++ [mkTransfer (address d) control_b_data data
                                      (height d * width / 8)])
               d in
    Some (tt, if negb (temp =? 0) then set_last_error temp d' else d').

Definition Display_Off : M unit := Write_Command 0xAE.

Definition Display_On : M unit := Write_Command 0xAF.

Definition Flip_Screen (flipped : bool) : M unit :=
  if negb flipped then Write_Command 0xC8 else Write_Command 0xC0.

Definition Invert_Colors (inverted : bool) : M unit :=
  if inverted then Write_Command 0xA7 else Write_Command 0xA6.

Definition Mirror_Screen (mirrored : bool) : M unit :=
  if negb mirrored then Write_Command 0xA1 else Write_Command 0xA0.

Definition Set_Brightness (brightness : Z) : M unit :=
  Write_Command 0x81 ;;
  Write_Command brightness.

Definition Update_Screen : M unit :=
  Write_Command 0x21 ;;
  Write_Command 0x00 ;;
  Write_Command 127 ;;
  Write_Command 0x22 ;;
  Write_Command 0x00 ;;
  h <- gets height ;;
  Write_Command (u8 (h / 8 - 1)) ;;
  b <- gets buffer ;;
  Write_Data b.

Definition Initialize : M bool :=
  Display_Off ;;
  Write_Command 0xD5 ;;
  Write_Command 0x80 ;;
  Write_Command 0xA8 ;;
  h <- gets height ;;
  Write_Command (u8 (h - 1)) ;;
  Write_Command 0xD3 ;;
  Write_Command 0x00 ;;
  Write_Command 0x40 ;;
  Write_Command 0x8D ;;
  Write_Command 0x14 ;;
  Mirror_Screen false ;;
  Flip_Screen false ;;
  Write_Command 0xDA ;;
  hc <- gets hard_conf ;;
  Write_Command hc ;;
  Set_Brightness 150 ;;
  Write_Command 0xD9 ;;
  Write_Command 0x22 ;;
  Write_Command 0xDB ;;
  Write_Command 0x40 ;;
  Write_Command 0xA4 ;;
  Invert_Colors false ;;
  Write_Command 0x20 ;;
  Write_Command 0x00 ;;
  Write_Command 0x21 ;;
  Write_Command 0x00 ;;
  Write_Command (u8 (width - 1)) ;;
  Write_Command 0x22 ;;
  Write_Command 0x00 ;;
  h <- gets height ;;
  Write_Command (u8 (h / 8 - 1)) ;;
  Display_On ;;
  Clean ;;
  Update_Screen ;;
  e <- gets last_error ;;
  (if e =? 0 then modify (set_isinitialized true)
   else modify (set_isinitialized false)) ;;
  gets isinitialized.

End Hardware.

(** The constructor.  [buffer] and [Coordinates] have no initialiser: the
    object starts with whatever [buffer0] and [Coordinates0] the storage
    holds; [font_7x10] is the default font of [fonts.h]. *)
Definition new (connection_port : list Transfer) (screen_height : Z)
    (hardware_configuration : HardwareConf) (device_address : Z)
    (font_7x10 : FontDef) (buffer0 : list Z) (Coordinates0 : Cursor) : t :=
  let d :=
    mkSSD1306 connection_port screen_height
              (HardwareConf_value hardware_configuration) device_address
              font_7x10 buffer0 false 0 Coordinates0 in
  if screen_height >? 64 then set_last_error 0xff d else d.

End SSD1306.

Import SSD1306.
Local Open Scope cpp_scope.

(** ** Reading the framebuffer back *)

(** The colour of a bit: set is WHITE, clear is BLACK. *)
Definition lit (c : Color) : bool :=
  match c with
  | WHITE => true
  | BLACK => false
  end.

(** Bit [y % 8] of byte [x + width * (y / 8)], when the buffer has it. *)
Definition read_pixel (d : t) (x y : Z) : option bool :=
  match array_get (buffer d) (pixel_index x y) with
  | Some b => Some (Z.testbit b (y mod 8))
  | None => None
  end.

(** A display no taller than the buffer was sized for. *)
Definition supported (d : t) : Prop := height d <= 64.

(** What a successful in-range [Draw_Pixel] leaves behind: the addressed
    byte exists before and after, its bit [y % 8] has the colour drawn and
    its seven other bits are as before. *)
Definition pixel_written (d : t) (x y : Z) (c : Color) : Prop :=
  exists d' b b',
    Draw_Pixel x y c d = Some (tt, d') /\
    array_get (buffer d) (pixel_index x y) = Some b /\
    array_get (buffer d') (pixel_index x y) = Some b' /\
    Z.testbit b' (y mod 8) = lit c /\
    (forall i, 0 <= i < 8 -> i <> y mod 8 -> Z.testbit b' i = Z.testbit b i) /\
    read_pixel d' x y = Some (lit c).

(** Everything but one byte of the buffer is as before. *)
Definition only_byte_changed (d d' : t) (i : Z) : Prop :=
  length (buffer d') = length (buffer d) /\
  (forall j, j <> i -> array_get (buffer d') j = array_get (buffer d) j) /\
  Coordinates d' = Coordinates d /\
  font d' = font d /\
  isinitialized d' = isinitialized d /\
  last_error d' = last_error d /\
  conn d' = conn d /\
  height d' = height d /\
  hard_conf d' = hard_conf d /\
  address d' = address d.


(** ** Runs of pixel writes *)

(** The values a [uint8_t] loop counter takes: [n] of them from [i] on. *)
Fixpoint upto (n : nat) (i : Z) : list Z :=
  match n with
  | O => []
  | S n' => i :: upto n' (i + 1)
  end.

(** A run of [Draw_Pixel] calls, in order. *)
Fixpoint draw_all (l : list (Z * Z * Color)) : M unit :=
  match l with
  | [] => ret tt
  | (x, y, c) :: l' => Draw_Pixel x y c ;; draw_all l'
  end.

(** A call at [(x, y)] on a display of height [h] reaches pixel [(px, py)]. *)
Definition hits (h x y px py : Z) : bool :=
  (x =? px) && (y =? py) && (x <? width) && (y <? h).

(** The colour the last call of a run to reach [(px, py)] gave it. *)
Fixpoint painted (h : Z) (l : list (Z * Z * Color)) (px py : Z)
  : option Color :=
  match l with
  | [] => None
  | (x, y, c) :: l' =>
      match painted h l' px py with
      | Some c' => Some c'
      | None => if hits h x y px py then Some c else None
      end
  end.

(** Nothing but the contents of the buffer differs between two objects. *)
Definition same_but_buffer (d d' : t) : Prop :=
  length (buffer d') = length (buffer d) /\
  Coordinates d' = Coordinates d /\
  font d' = font d /\
  isinitialized d' = isinitialized d /\
  last_error d' = last_error d /\
  conn d' = conn d /\
  height d' = height d /\
  hard_conf d' = hard_conf d /\
  address d' = address d.

(** ** Lines *)

(** The calls a line is made of; [wrap] is what becomes of a coordinate on
    its way into [Draw_Pixel]'s [uint8_t] parameter. *)
Definition line_H_calls (wrap : Z -> Z) (x y length : Z) (c : Color)
  : list (Z * Z * Color) :=
  map (fun i => (wrap (x + i), y, c)) (upto (Z.to_nat length) 0).

Definition line_V_calls (wrap : Z -> Z) (x y length : Z) (c : Color)
  : list (Z * Z * Color) :=
  map (fun i => (x, wrap (y + i), c)) (upto (Z.to_nat length) 0).

(** [d'] is [d] with the on-screen pixels of [calls] given their colour and
    no other bit of the framebuffer touched. *)
Definition drawn (d d' : t) (calls : list (Z * Z * Color)) : Prop :=
  same_but_buffer d d' /\
  (forall px py c,
      In (px, py, c) calls -> 0 <= px < width -> 0 <= py < height d ->
      read_pixel d' px py = Some (lit c)) /\
  (forall px py,
      0 <= px < width -> 0 <= py < 64 ->
      read_pixel d' px py <> read_pixel d px py ->
      exists c, In (px, py, c) calls /\ py < height d).

(** [Draw_Line_H] makes exactly the [length] calls of [line_H_calls], and
    leaves the framebuffer accordingly. *)
Definition line_H_drawn (wrap : Z -> Z) (d : t) (x y length : Z) (c : Color)
  : Prop :=
  Z.of_nat (List.length (line_H_calls wrap x y length c)) = length /\
  Draw_Line_H x y length c d = draw_all (line_H_calls wrap x y length c) d /\
  exists d', Draw_Line_H x y length c d = Some (tt, d') /\
             drawn d d' (line_H_calls wrap x y length c).

Definition line_V_drawn (wrap : Z -> Z) (d : t) (x y length : Z) (c : Color)
  : Prop :=
  Z.of_nat (List.length (line_V_calls wrap x y length c)) = length /\
  Draw_Line_V x y length c d = draw_all (line_V_calls wrap x y length c) d /\
  exists d', Draw_Line_V x y length c d = Some (tt, d') /\
             drawn d d' (line_V_calls wrap x y length c).

(** ** Glyphs *)

(** Row [y] of the glyph of [chr], as [Write_Char] loads it into its
    [uint16_t row]. *)
Definition glyph_row (f : FontDef) (chr y : Z) : option Z :=
  match array_get (data f) ((chr - 32) * FontHeight f + y) with
  | Some r => Some (u16 r)
  | None => None
  end.

(** The font table has all the rows of the glyph of [chr]. *)
Definition glyph_present (f : FontDef) (chr : Z) : Prop :=
  forall y, 0 <= y < FontHeight f -> exists r, glyph_row f chr y = Some r.

(** The colour of a glyph pixel: the text colour where the row has its bit
    set, the opposite colour where it has not. *)
Definition ink (color : Color) (bit : bool) : Color :=
  match color, bit with
  | WHITE, true => WHITE
  | WHITE, false => BLACK
  | BLACK, true => BLACK
  | BLACK, false => WHITE
  end.

(** Bit [15 - x] of a row word. *)
Definition row_bit (row : option Z) (x : Z) : bool :=
  match row with
  | Some r => Z.testbit r (15 - x)
  | None => false
  end.

Definition glyph_row_calls (wrap : Z -> Z) (f : FontDef) (p : Cursor)
    (chr : Z) (color : Color) (y : Z) : list (Z * Z * Color) :=
  map (fun x => (wrap (X p + x), wrap (Y p + y),
                 ink color (row_bit (glyph_row f chr y) x)))
      (upto (Z.to_nat (FontWidth f)) 0).

(** The calls a glyph is made of, row after row, left to right. *)
Definition glyph_calls (wrap : Z -> Z) (f : FontDef) (p : Cursor)
    (chr : Z) (color : Color) : list (Z * Z * Color) :=
  flat_map (glyph_row_calls wrap f p chr color)
           (upto (Z.to_nat (FontHeight f)) 0).

(** [Write_Char] paints the glyph rectangle at the cursor, every pixel of it
    in the colour [ink] gives, touches no other bit, and moves the cursor
    right by the glyph width. *)
Definition glyph_drawn (wrap : Z -> Z) (d : t) (chr : Z) (color : Color)
  : Prop :=
  exists d1 d',
    draw_all (glyph_calls wrap (font d) (Coordinates d) chr color) d
      = Some (tt, d1) /\
    Write_Char chr color d = Some (tt, d') /\
    d' = set_Coordinates
           (mkCursor (wrap (X (Coordinates d) + FontWidth (font d)))
                     (Y (Coordinates d))) d1 /\
    (forall x y,
        0 <= x < FontWidth (font d) -> 0 <= y < FontHeight (font d) ->
        0 <= wrap (X (Coordinates d) + x) < width ->
        0 <= wrap (Y (Coordinates d) + y) < height d ->
        read_pixel d' (wrap (X (Coordinates d) + x))
                      (wrap (Y (Coordinates d) + y))
        = Some (lit (ink color (row_bit (glyph_row (font d) chr y) x)))) /\
    (forall px py,
        0 <= px < width -> 0 <= py < 64 ->
        read_pixel d' px py <> read_pixel d px py ->
        exists x y,
          0 <= x < FontWidth (font d) /\ 0 <= y < FontHeight (font d) /\
          px = wrap (X (Coordinates d) + x) /\
          py = wrap (Y (Coordinates d) + y) /\
          py < height d) /\
    font d' = font d /\
    isinitialized d' = isinitialized d /\
    last_error d' = last_error d /\
    conn d' = conn d.

(** The bodies of the two loops of [Write_Char], named for the proofs. *)
Definition Write_Char_column (color : Color) (row y x : Z) : M unit :=
  p <- gets Coordinates ;;
  match color with
  | BLACK =>
      if glyph_bit row x
      then Draw_Pixel (u8 (X p + x)) (u8 (Y p + y)) BLACK
      else Draw_Pixel (u8 (X p + x)) (u8 (Y p + y)) WHITE
  | WHITE =>
      if glyph_bit row x
      then Draw_Pixel (u8 (X p + x)) (u8 (Y p + y)) WHITE
      else Draw_Pixel (u8 (X p + x)) (u8 (Y p + y)) BLACK
  end.

Definition Write_Char_row (chr : Z) (color : Color) (y : Z) : M unit :=
  f <- gets font ;;
  row <- lift (array_get (data f) ((chr - 32) * FontHeight f + y)) ;;
  for_u8 (FontWidth f) (Write_Char_column color (u16 row) y).

(** ** The cursor *)

(** Below its bound an argument is stored as it is, from the bound on it is
    replaced by the bound. *)
Definition cursor_clamped (d d' : t) (x y : Z) : Prop :=
  (x < width -> X (Coordinates d') = x) /\
  (x >= width -> X (Coordinates d') = width) /\
  (y < height d -> Y (Coordinates d') = y) /\
  (y >= height d -> Y (Coordinates d') = height d).

(** The cursor is on the screen ... *)
Definition cursor_inside (d : t) : Prop :=
  0 <= X (Coordinates d) < width /\ 0 <= Y (Coordinates d) < height d.

(** ... or at most one step past its right or lower edge. *)
Definition cursor_up_to_edge (d : t) : Prop :=
  0 <= X (Coordinates d) <= width /\ 0 <= Y (Coordinates d) <= height d.

(** The glyph drawn at the cursor stays clear of the 8-bit limit of the
    coordinates, and so does the cursor after it. *)
Definition cursor_fits (d : t) : Prop :=
  0 <= X (Coordinates d) /\
  X (Coordinates d) + FontWidth (font d) <= 255 /\
  0 <= Y (Coordinates d) /\
  Y (Coordinates d) + FontHeight (font d) <= 256.

(** ** Bus traffic *)

(** A one-byte command transfer to the device at [a]. *)
Definition command (a c : Z) : Transfer := mkTransfer a control_b_command [c] 1.

(** The error code after a transfer answered with status [s]. *)
Definition latch (s e : Z) : Z := if s =? 0 then e else s.

(** The command bytes of [Initialize], up to display-on. *)
Definition init_commands (d : t) : list Z :=
  [0xAE; 0xD5; 0x80; 0xA8; u8 (height d - 1); 0xD3; 0x00; 0x40; 0x8D; 0x14;
   0xA1; 0xC8; 0xDA; hard_conf d; 0x81; 150; 0xD9; 0x22; 0xDB; 0x40; 0xA4;
   0xA6; 0x20; 0x00; 0x21; 0x00; u8 (width - 1); 0x22; 0x00;
   u8 (height d / 8 - 1); 0xAF].

(** The command bytes of [Update_Screen]. *)
Definition refresh_commands (d : t) : list Z :=
  [0x21; 0x00; 127; 0x22; 0x00; u8 (height d / 8 - 1)].

(** The data transfer of a flush of buffer contents [b]. *)
Definition flush (d : t) (b : list Z) : Transfer :=
  mkTransfer (address d) control_b_data b (height d * width / 8).

(** [Update_Screen] took [d] to [d']: six commands, then one data block, the
    first [width * height / 8] bytes of the framebuffer. *)
Definition refreshed (d d' : t) : Prop :=
  buffer d' = buffer d /\
  conn d' = conn d ++ map (command (address d)) (refresh_commands d)
                   ++ [flush d (buffer d)] /\
  exists block,
    payload (flush d (buffer d)) = Some block /\
    Z.of_nat (length block) = width * height d / 8 /\
    block = take (length block) (buffer d).

Section Operations.

Variable HAL_I2C_Mem_Write :
  list Transfer -> Z -> Z -> Z -> list Z -> Z -> Z -> Z.

(** The object after one transfer. *)
Definition transferred (control : Z) (bytes : list Z) (size : Z) (d : t) : t :=
  let temp :=
    HAL_I2C_Mem_Write (conn d) (address d) control 1 bytes size 1000 in
  let d' := set_conn (conn d ++ [mkTransfer (address d) control bytes size]) d in
  if negb (temp =? 0) then set_last_error temp d' else d'.

Definition sent (c : Z) (d : t) : t := transferred control_b_command [c] 1 d.

Definition sent_all (cs : list Z) (d : t) : t :=
  fold_left (fun d c => sent c d) cs d.

(** The state [Initialize] reaches before it looks at [last_error]: the
    commands, the cleared buffer, the flush. *)
Definition initialized_state (d : t) : t :=
  let d1 := sent_all (init_commands d) d in
  let d2 := set_buffer (map (fun _ => 0) (buffer d1)) d1 in
  transferred control_b_data (buffer d2) (height d2 * width / 8)
    (sent_all (refresh_commands d2) d2).

(** The member functions, public and then private, as calls. *)
Inductive Operation : Type :=
| Call_Initialize
| Call_Update_Screen
| Call_Clean
| Call_Fill (color : Color)
| Call_Set_Cursor (x y : Z)
| Call_Write_String (str : list Z)
| Call_Write_String_Inverted (str : list Z)
| Call_Draw_Pixel (x y : Z) (c : Color)
| Call_Draw_Image (image : list Z)
| Call_Draw_Line_H (x y width : Z) (c : Color)
| Call_Draw_Line_V (x y height : Z) (c : Color)
| Call_Draw_Square (x y x2 y2 : Z) (c : Color)
| Call_Draw_Waveform (x y : Z) (buffer : list Z) (size : Z) (c : Color)
| Call_Display_Off
| Call_Display_On
| Call_Set_Brightness (brightness : Z)
| Call_Invert_Colors (inverted : bool)
| Call_Flip_Screen (flipped : bool)
| Call_Mirror_Screen (mirrored : bool)
| Call_Set_Font_size (f : FontDef)
| Call_IsInitialized
| Call_Get_Last_Error
| Call_Clean_Errors
| Call_Write_Command (command : Z)
| Call_Write_Data (data : list Z)
| Call_Write_Char (chr : Z) (color : Color).

Definition call (op : Operation) : M unit :=
  match op with
  | Call_Initialize => _ <- Initialize HAL_I2C_Mem_Write ;; ret tt
  | Call_Update_Screen => Update_Screen HAL_I2C_Mem_Write
  | Call_Clean => Clean
  | Call_Fill color => Fill color
  | Call_Set_Cursor x y => Set_Cursor x y
  | Call_Write_String str => Write_String str
  | Call_Write_String_Inverted str => Write_String_Inverted str
  | Call_Draw_Pixel x y c => Draw_Pixel x y c
  | Call_Draw_Image image => Draw_Image image
  | Call_Draw_Line_H x y w c => Draw_Line_H x y w c
  | Call_Draw_Line_V x y h c => Draw_Line_V x y h c
  | Call_Draw_Square x y x2 y2 c => Draw_Square x y x2 y2 c
  | Call_Draw_Waveform x y b n c => Draw_Waveform x y b n c
  | Call_Display_Off => Display_Off HAL_I2C_Mem_Write
  | Call_Display_On => Display_On HAL_I2C_Mem_Write
  | Call_Set_Brightness b => Set_Brightness HAL_I2C_Mem_Write b
  | Call_Invert_Colors b => Invert_Colors HAL_I2C_Mem_Write b
  | Call_Flip_Screen b => Flip_Screen HAL_I2C_Mem_Write b
  | Call_Mirror_Screen b => Mirror_Screen HAL_I2C_Mem_Write b
  | Call_Set_Font_size f => Set_Font_size f
  | Call_IsInitialized => _ <- IsInitialized ;; ret tt
  | Call_Get_Last_Error => _ <- Get_Last_Error ;; ret tt
  | Call_Clean_Errors => Clean_Errors
  | Call_Write_Command c => Write_Command HAL_I2C_Mem_Write c
  | Call_Write_Data b => Write_Data HAL_I2C_Mem_Write b
  | Call_Write_Char chr color => Write_Char chr color
  end.

(** A computation that never clears a latched error. *)
Definition keeps_error {A : Type} (m : M A) : Prop :=
  forall d a d', m d = Some (a, d') -> last_error d <> 0 -> last_error d' <> 0.

End Operations.

(** ** Concrete displays *)

(** A peripheral that acknowledges every transfer ([HAL_OK]), and one that
    answers [HAL_BUSY] to all of them. *)
Definition quiet_bus (_ : list Transfer) (_ _ _ : Z) (_ : list Z) (_ _ : Z)
  : Z := 0.

Definition busy_bus (_ : list Transfer) (_ _ _ : Z) (_ : list Z) (_ _ : Z)
  : Z := 2.

(** A 7x10 font holding one glyph, the ['8'] the unit tests quote from the
    font file; the glyphs before it are left empty. *)
Definition font_eight : FontDef :=
  mkFont 7 10
         (repeat 0 (Z.to_nat ((56 - 32) * 10))
          ++ [0x3800; 0x4400; 0x4400; 0x3800; 0x4400;
              0x4400; 0x4400; 0x3800; 0x0000; 0x0000]).

(** Zeroed storage, as for an object of static storage duration. *)
Definition blank : list Z := repeat 0 (Z.to_nat buffer_size).

(** [SSD1306 oled64 (&dummy, 64)] of the unit tests. *)
Definition oled64 : t :=
  new [] 64 ALT_NOREMAP 0x78 font_eight blank (mkCursor 0 0).

(** The same constructor called with a height of 72 rows. *)
Definition oled72 : t :=
  new [] 72 ALT_NOREMAP 0x78 font_eight blank (mkCursor 0 0).

(** The object a computation leaves behind (the object itself after a
    fault). *)
Definition after {A : Type} (m : M A) (d : t) : t :=
  match m d with
  | Some (_, d') => d'
  | None => d
  end.

(** [oled64] after eighteen characters written from column 127 on. *)
Definition oled64_at_edge : t :=
  after (Clean ;; Set_Cursor 127 0 ;; Write_String (repeat 56 18)) oled64.

(** The bytes the recording transport of the unit tests would hold: every
    command byte, and the block of every data transfer. *)
Definition wire (l : list Transfer) : list Z :=
  flat_map (fun tr => match payload tr with
                      | Some block => block
                      | None => []
                      end) l.

(** ** Further definitions: the rest of the member functions *)

(** The byte [Draw_Pixel] stores: bit [k] of [b] set for WHITE, cleared
    otherwise. *)
Definition write_bit (c : Color) (b k : Z) : Z :=
  match c with
  | WHITE => u8 (Z.lor b (u8 (Z.shiftl 1 k)))
  | BLACK => u8 (Z.land b (u8 (Z.lnot (Z.shiftl 1 k))))
  end.

(** What [Draw_Pixel] does to the contents of the buffer of a display of
    height [h]. *)
Definition poke (x y : Z) (c : Color) (h : Z) (buf : list Z)
  : option (list Z) :=
  if (x >=? width) || (y >=? h) then Some buf
  else
    match array_get buf (pixel_index x y) with
    | None => None
    | Some b =>
        Some (<[Z.to_nat (pixel_index x y) := write_bit c b (y mod 8)]> buf)
    end.

(** The calls [Draw_Square] makes: two horizontal lines, two vertical. *)
Definition square_calls (x y x2 y2 : Z) (c : Color) : list (Z * Z * Color) :=
  line_H_calls u8 x y (u8 (x2 - x + 1)) c
  ++ line_H_calls u8 x y2 (u8 (x2 - x + 1)) c
  ++ line_V_calls u8 x y (u8 (y2 - y + 1)) c
  ++ line_V_calls u8 x2 y (u8 (y2 - y + 1)) c.

(** A pixel on the border of the rectangle from [(x, y)] to [(x2, y2)]. *)
Definition on_border (x y x2 y2 px py : Z) : Prop :=
  (x <= px <= x2 /\ (py = y \/ py = y2)) \/
  ((px = x \/ px = x2) /\ y <= py <= y2).

(** The calls [Draw_Waveform] makes for the samples it can read. *)
Definition waveform_calls (wrap : Z -> Z) (x y : Z) (samples : list Z)
    (size : Z) (c : Color) : list (Z * Z * Color) :=
  map (fun i => (wrap (i + x), wrap (y - nth (Z.to_nat i) samples 0), c))
      (upto (Z.to_nat size) 0).

(** The members no drawing function may touch. *)
Definition off_screen_state_kept (d d' : t) : Prop :=
  conn d' = conn d /\
  last_error d' = last_error d /\
  isinitialized d' = isinitialized d /\
  height d' = height d /\
  hard_conf d' = hard_conf d /\
  address d' = address d.

(** The members no bus command may touch. *)
Definition screen_state_kept (d d' : t) : Prop :=
  buffer d' = buffer d /\
  Coordinates d' = Coordinates d /\
  font d' = font d /\
  isinitialized d' = isinitialized d /\
  height d' = height d /\
  hard_conf d' = hard_conf d /\
  address d' = address d.

(** [e] has the shape of the well-formed object [d]: a buffer of 1024 bytes
    and the configuration of [d]. *)
Definition shape_kept (d e : t) : Prop :=
  typed e /\
  height e = height d /\ hard_conf e = hard_conf d /\ address e = address d.

(** A computation under which a property of the object persists. *)
Definition keeps {A : Type} (P : t -> Prop) (m : M A) : Prop :=
  forall d a d', m d = Some (a, d') -> P d -> P d'.

(** [last_error] after transfers answered with the statuses [ss], in
    order. *)
Definition latched (ss : list Z) (e : Z) : Z :=
  fold_left (fun e s => latch s e) ss e.

(** The last status other than 0 among [ss], or [e] when all are 0. *)
Definition latest_failure (ss : list Z) (e : Z) : Z :=
  List.last (List.filter (fun s => negb (s =? 0)) ss) e.

Section More_operations.

Variable HAL_I2C_Mem_Write :
  list Transfer -> Z -> Z -> Z -> list Z -> Z -> Z -> Z.

(** The status the peripheral gives transfer [tr] after the transfers
    [hist]. *)
Definition answer (hist : list Transfer) (tr : Transfer) : Z :=
  HAL_I2C_Mem_Write hist (DevAddress tr) (MemAddress tr) 1 (pData tr)
                    (Size tr) 1000.

(** The statuses of a run of transfers, each seen after its predecessors. *)
Fixpoint answers (hist : list Transfer) (trs : list Transfer) : list Z :=
  match trs with
  | [] => []
  | tr :: rest => answer hist tr :: answers (hist ++ [tr]) rest
  end.

End More_operations.

(** The functions that work on the framebuffer, the cursor and the font
    only. *)
Definition is_local (op : Operation) : bool :=
  match op with
  | Call_Clean | Call_Fill _ | Call_Set_Cursor _ _
  | Call_Write_String _ | Call_Write_String_Inverted _
  | Call_Draw_Pixel _ _ _ | Call_Draw_Image _
  | Call_Draw_Line_H _ _ _ _ | Call_Draw_Line_V _ _ _ _
  | Call_Draw_Square _ _ _ _ _ | Call_Draw_Waveform _ _ _ _ _
  | Call_Set_Font_size _ | Call_IsInitialized | Call_Get_Last_Error
  | Call_Write_Char _ _ => true
  | _ => false
  end.

(** The command bytes of the functions that only talk to the controller. *)
Definition control_bytes (op : Operation) : option (list Z) :=
  match op with
  | Call_Display_Off => Some [0xAE]
  | Call_Display_On => Some [0xAF]
  | Call_Set_Brightness b => Some [0x81; b]
  | Call_Invert_Colors inverted => Some [if inverted then 0xA7 else 0xA6]
  | Call_Flip_Screen flipped => Some [if flipped then 0xC0 else 0xC8]
  | Call_Mirror_Screen mirrored => Some [if mirrored then 0xA0 else 0xA1]
  | _ => None
  end.

(** A 128x32 display, the other panel the header names. *)
Definition oled32 : t :=
  new [] 32 SEQ_NOREMAP 0x78 font_eight blank (mkCursor 0 0).
(** ** Bits of a byte *)

Lemma testbit_u8 (z i : Z) : 0 <= i < 8 -> Z.testbit (u8 z) i = Z.testbit z i.
Proof.
  intros Hi. unfold u8. change 256 with (2 ^ 8).
  apply Z.mod_pow2_bits_low. lia.
Qed.

Lemma testbit_one_shl (k i : Z) :
  0 <= k -> Z.testbit (Z.shiftl 1 k) i = (k =? i).
Proof.
  intros Hk. rewrite Z.shiftl_1_l. apply Z.pow2_bits_eqb. exact Hk.
Qed.

Lemma u8_range (z : Z) : is_u8 (u8 z).
Proof. unfold is_u8, u8. apply Z.mod_pos_bound. lia. Qed.

Lemma set_bit_spec (b k i : Z) :
  0 <= k < 8 -> 0 <= i < 8 ->
  Z.testbit (u8 (Z.lor b (u8 (Z.shiftl 1 k)))) i = Z.testbit b i || (k =? i).
Proof.
  intros Hk Hi.
  rewrite testbit_u8, Z.lor_spec, testbit_u8, testbit_one_shl by lia.
  reflexivity.
Qed.

Lemma clear_bit_spec (b k i : Z) :
  0 <= k < 8 -> 0 <= i < 8 ->
  Z.testbit (u8 (Z.land b (u8 (Z.lnot (Z.shiftl 1 k))))) i
  = Z.testbit b i && negb (k =? i).
Proof.
  intros Hk Hi.
  rewrite testbit_u8, Z.land_spec, testbit_u8, Z.lnot_spec, testbit_one_shl
    by lia.
  reflexivity.
Qed.

(** ** Array access *)

Lemma array_get_Some (a : list Z) (i : Z) :
  0 <= i < Z.of_nat (length a) -> exists b, array_get a i = Some b.
Proof.
  intros Hi. unfold array_get.
  destruct (i <? 0) eqn:E; [lia|].
  destruct (lookup_lt_is_Some_2 a (Z.to_nat i)) as [b Hb]; [lia|].
  exists b. exact Hb.
Qed.

Lemma array_get_insert_eq (a : list Z) (i v : Z) :
  0 <= i < Z.of_nat (length a) ->
  array_get (<[Z.to_nat i := v]> a) i = Some v.
Proof.
  intros Hi. unfold array_get.
  destruct (i <? 0) eqn:E; [lia|].
  apply list_lookup_insert_eq. lia.
Qed.

Lemma array_get_insert_ne (a : list Z) (i j v : Z) :
  0 <= i -> j <> i ->
  array_get (<[Z.to_nat i := v]> a) j = array_get a j.
Proof.
  intros Hi Hne. unfold array_get.
  destruct (j <? 0) eqn:E; [reflexivity|].
  apply list_lookup_insert_ne. lia.
Qed.

(** ** [Draw_Pixel] *)

Lemma pixel_index_bounds (h x y : Z) :
  0 <= x < width -> 0 <= y < h -> h <= 64 ->
  0 <= pixel_index x y < buffer_size.
Proof.
  unfold pixel_index, width, buffer_size. intros Hx Hy Hh.
  assert (0 <= y / 8 < 8) by (split; [apply Z.div_pos | apply Z.div_lt_upper_bound]; lia).
  change (64 / 8 * 128) with 1024. lia.
Qed.

Lemma Draw_Pixel_guard_false (d : t) (x y : Z) :
  x < width -> y < height d ->
  (x >=? width) || (y >=? height d) = false.
Proof. intros. apply orb_false_iff. split; lia. Qed.

Lemma Draw_Pixel_in_buffer (d : t) (x y : Z) (c : Color) (b : Z) :
  x < width -> y < height d ->
  array_get (buffer d) (pixel_index x y) = Some b ->
  Draw_Pixel x y c d
  = Some (tt, set_buffer
                (<[Z.to_nat (pixel_index x y) :=
                     match c with
                     | WHITE => u8 (Z.lor b (u8 (Z.shiftl 1 (y mod 8))))
                     | BLACK => u8 (Z.land b (u8 (Z.lnot (Z.shiftl 1 (y mod 8)))))
                     end]> (buffer d)) d).
Proof.
  intros Hx Hy Hb. unfold Draw_Pixel.
  rewrite Draw_Pixel_guard_false, Hb by assumption. reflexivity.
Qed.

(** The guard: outside the screen the object comes back as it was. *)
Lemma Draw_Pixel_skip (d : t) (x y : Z) (c : Color) :
  x >= width \/ y >= height d ->
  Draw_Pixel x y c d = Some (tt, d).
Proof.
  intros H. unfold Draw_Pixel.
  replace ((x >=? width) || (y >=? height d)) with true; [reflexivity|].
  symmetry. apply orb_true_iff. destruct H; [left | right]; lia.
Qed.

(** ** Runs of [Draw_Pixel] calls *)

Lemma same_but_buffer_refl (d : t) : same_but_buffer d d.
Proof. unfold same_but_buffer. repeat split. Qed.

Lemma same_but_buffer_trans (d1 d2 d3 : t) :
  same_but_buffer d1 d2 -> same_but_buffer d2 d3 -> same_but_buffer d1 d3.
Proof.
  unfold same_but_buffer. intros H1 H2.
  destruct H1 as (?&?&?&?&?&?&?&?&?), H2 as (?&?&?&?&?&?&?&?&?).
  repeat split; congruence.
Qed.

Lemma same_but_buffer_typed (d d' : t) :
  same_but_buffer d d' -> typed d -> typed d'.
Proof.
  intros (Hl&_&_&_&_&_&Hh&_) [H1 H2]. split; [rewrite Hh | rewrite Hl]; assumption.
Qed.

Lemma same_but_buffer_supported (d d' : t) :
  same_but_buffer d d' -> supported d -> supported d'.
Proof. intros (_&_&_&_&_&_&Hh&_). unfold supported. rewrite Hh. auto. Qed.

Lemma Draw_Pixel_same (d d' : t) (x y : Z) (c : Color) (u : unit) :
  Draw_Pixel x y c d = Some (u, d') -> same_but_buffer d d'.
Proof.
  unfold Draw_Pixel.
  destruct ((x >=? width) || (y >=? height d)).
  - intros [= _ <-]. apply same_but_buffer_refl.
  - destruct (array_get (buffer d) (pixel_index x y)); [|discriminate].
    intros [= _ <-]. unfold same_but_buffer. cbn.
    split; [apply length_insert | repeat split].
Qed.

Lemma draw_all_same (l : list (Z * Z * Color)) (d d' : t) (u : unit) :
  draw_all l d = Some (u, d') -> same_but_buffer d d'.
Proof.
  revert d. induction l as [|[[x y] c] l IH]; intros d.
  - intros [= _ <-]. apply same_but_buffer_refl.
  - cbn [draw_all]. unfold bind.
    destruct (Draw_Pixel x y c d) as [[u1 d1]|] eqn:E; [|discriminate].
    intros H. eapply same_but_buffer_trans; [eapply Draw_Pixel_same; exact E|].
    apply IH. exact H.
Qed.

(** With the height within what the buffer holds, no call faults. *)
Lemma Draw_Pixel_total (d : t) (x y : Z) (c : Color) :
  typed d -> supported d -> 0 <= x -> 0 <= y ->
  exists d', Draw_Pixel x y c d = Some (tt, d').
Proof.
  intros Ht Hs Hx Hy.
  destruct (Z_lt_ge_dec x width) as [Hxw|Hxw];
    [destruct (Z_lt_ge_dec y (height d)) as [Hyh|Hyh]|].
  - pose proof (pixel_index_bounds (height d) x y (conj Hx Hxw) (conj Hy Hyh) Hs)
      as Hi.
    rewrite <- (typed_buffer d Ht) in Hi.
    destruct (array_get_Some _ _ Hi) as [b Hb].
    eexists. apply Draw_Pixel_in_buffer; eassumption.
  - exists d. apply Draw_Pixel_skip. right. exact Hyh.
  - exists d. apply Draw_Pixel_skip. left. exact Hxw.
Qed.

Lemma written_bit (b k i : Z) (c : Color) :
  0 <= k < 8 -> 0 <= i < 8 ->
  Z.testbit
    match c with
    | WHITE => u8 (Z.lor b (u8 (Z.shiftl 1 k)))
    | BLACK => u8 (Z.land b (u8 (Z.lnot (Z.shiftl 1 k))))
    end i
  = if k =? i then lit c else Z.testbit b i.
Proof.
  intros Hk Hi. destruct c; cbn [lit].
  - rewrite clear_bit_spec by lia.
    destruct (k =? i); [apply andb_false_r | apply andb_true_r].
  - rewrite set_bit_spec by lia.
    destruct (k =? i); [apply orb_true_r | apply orb_false_r].
Qed.

(** Two pixels of the same byte and the same bit are the same pixel. *)
Lemma pixel_slot_inj (x y px py : Z) :
  0 <= x < width -> 0 <= px < width -> 0 <= y -> 0 <= py ->
  pixel_index x y = pixel_index px py -> y mod 8 = py mod 8 ->
  x = px /\ y = py.
Proof.
  unfold pixel_index, width. intros Hx Hpx Hy Hpy Hi Hm.
  Z.div_mod_to_equations. lia.
Qed.

Lemma hits_true (h x y px py : Z) :
  hits h x y px py = true <-> x = px /\ y = py /\ x < width /\ y < h.
Proof.
  unfold hits. rewrite !andb_true_iff. lia.
Qed.

Lemma hits_false (h x y px py : Z) :
  hits h x y px py = false <-> ~ (x = px /\ y = py /\ x < width /\ y < h).
Proof.
  rewrite <- hits_true. destruct (hits h x y px py); split; congruence.
Qed.

(** One call seen from any pixel of the buffer. *)
Lemma Draw_Pixel_read (d d' : t) (x y : Z) (c : Color) :
  typed d -> supported d -> 0 <= x -> 0 <= y ->
  Draw_Pixel x y c d = Some (tt, d') ->
  forall px py, 0 <= px < width -> 0 <= py ->
    read_pixel d' px py
    = if hits (height d) x y px py then Some (lit c) else read_pixel d px py.
Proof.
  intros Ht Hs Hx Hy Hrun px py Hpx Hpy.
  destruct (Z_lt_ge_dec x width) as [Hxw|Hxw];
    [destruct (Z_lt_ge_dec y (height d)) as [Hyh|Hyh]|].
  - pose proof (pixel_index_bounds (height d) x y (conj Hx Hxw) (conj Hy Hyh) Hs)
      as Hi.
    rewrite <- (typed_buffer d Ht) in Hi.
    destruct (array_get_Some _ _ Hi) as [b Hb].
    rewrite (Draw_Pixel_in_buffer d x y c b Hxw Hyh Hb) in Hrun.
    injection Hrun as <-.
    assert (Hk : 0 <= y mod 8 < 8) by (apply Z.mod_pos_bound; lia).
    assert (Hpk : 0 <= py mod 8 < 8) by (apply Z.mod_pos_bound; lia).
    unfold read_pixel. cbn [buffer set_buffer].
    destruct (Z.eq_dec (pixel_index px py) (pixel_index x y)) as [Heq|Hne].
    + rewrite Heq, array_get_insert_eq, Hb by exact Hi.
      rewrite written_bit by assumption.
      destruct (Z.eqb_spec (y mod 8) (py mod 8)) as [Hm|Hm].
      * destruct (pixel_slot_inj x y px py) as [-> ->]; try lia.
        replace (hits (height d) px py px py) with true; [reflexivity|].
        symmetry. apply hits_true. lia.
      * replace (hits (height d) x y px py) with false; [reflexivity|].
        symmetry. apply hits_false. intros (_&->&_). congruence.
    + rewrite array_get_insert_ne by lia.
      replace (hits (height d) x y px py) with false; [reflexivity|].
      symmetry. apply hits_false. intros (->&->&_). congruence.
  - rewrite Draw_Pixel_skip in Hrun by (right; exact Hyh).
    injection Hrun as <-.
    replace (hits (height d) x y px py) with false; [reflexivity|].
    symmetry. apply hits_false. lia.
  - rewrite Draw_Pixel_skip in Hrun by (left; exact Hxw).
    injection Hrun as <-.
    replace (hits (height d) x y px py) with false; [reflexivity|].
    symmetry. apply hits_false. lia.
Qed.

(** A whole run: it returns, and every pixel shows the colour of the last
    call that reached it, or what it showed before. *)
Lemma draw_all_read (l : list (Z * Z * Color)) (d : t) :
  typed d -> supported d ->
  Forall (fun p => 0 <= p.1.1 /\ 0 <= p.1.2) l ->
  exists d',
    draw_all l d = Some (tt, d') /\
    same_but_buffer d d' /\
    forall px py, 0 <= px < width -> 0 <= py ->
      read_pixel d' px py
      = match painted (height d) l px py with
        | Some c => Some (lit c)
        | None => read_pixel d px py
        end.
Proof.
  revert d. induction l as [|[[x y] c] l IH]; intros d Ht Hs Hl.
  - exists d. split; [reflexivity|]. split; [apply same_but_buffer_refl|].
    reflexivity.
  - apply Forall_cons in Hl as [[Hx Hy] Hl]. cbn in Hx, Hy.
    destruct (Draw_Pixel_total d x y c Ht Hs Hx Hy) as [d1 H1].
    pose proof (Draw_Pixel_same _ _ _ _ _ _ H1) as Hsame.
    destruct (IH d1) as (d'&Hrun&Hsame'&Hread);
      [eapply same_but_buffer_typed; eassumption
      |eapply same_but_buffer_supported; eassumption
      |exact Hl|].
    exists d'. split; [cbn [draw_all]; unfold bind; rewrite H1; exact Hrun|].
    split; [eapply same_but_buffer_trans; eassumption|].
    intros px py Hpx Hpy. rewrite Hread by assumption.
    assert (Hh : height d1 = height d) by apply Hsame.
    rewrite Hh. cbn [painted].
    destruct (painted (height d) l px py); [reflexivity|].
    rewrite (Draw_Pixel_read d d1 x y c) by assumption.
    destruct (hits (height d) x y px py); reflexivity.
Qed.

Lemma painted_Some (h : Z) (l : list (Z * Z * Color)) (px py : Z) (c : Color) :
  painted h l px py = Some c ->
  In (px, py, c) l /\ px < width /\ py < h.
Proof.
  induction l as [|[[x y] c0] l IH]; cbn [painted]; [discriminate|].
  destruct (painted h l px py) as [c'|].
  - intros [= ->]. destruct (IH eq_refl) as (Hin&Hb). split; [right; exact Hin | exact Hb].
  - destruct (hits h x y px py) eqn:Eh; [|discriminate].
    intros [= ->]. apply hits_true in Eh as (->&->&?&?).
    split; [left; reflexivity | lia].
Qed.

Lemma painted_None (h : Z) (l : list (Z * Z * Color)) (px py : Z) :
  painted h l px py = None ->
  forall c, In (px, py, c) l -> ~ (px < width /\ py < h).
Proof.
  induction l as [|[[x y] c0] l IH]; cbn [painted]; [intros _ c []|].
  destruct (painted h l px py) as [c'|]; [discriminate|].
  destruct (hits h x y px py) eqn:Eh; [discriminate|].
  intros _ c [[= -> -> ->]|Hin].
  - apply hits_false in Eh. tauto.
  - apply (IH eq_refl c Hin).
Qed.

(** When every call of a run at a pixel carries the same colour, that is the
    colour the pixel ends with. *)
Lemma painted_unique (h : Z) (l : list (Z * Z * Color)) (px py : Z) (c : Color) :
  In (px, py, c) l -> px < width -> py < h ->
  (forall c', In (px, py, c') l -> c' = c) ->
  painted h l px py = Some c.
Proof.
  intros Hin Hx Hy Huniq.
  destruct (painted h l px py) as [c'|] eqn:E.
  - apply painted_Some in E as (Hin'&_). f_equal. apply Huniq. exact Hin'.
  - exfalso. apply (painted_None _ _ _ _ E c Hin). split; assumption.
Qed.

(** A run whose calls agree on the colour of every pixel they share. *)
Lemma draw_all_drawn (l : list (Z * Z * Color)) (d : t) :
  typed d -> supported d ->
  Forall (fun p => 0 <= p.1.1 /\ 0 <= p.1.2) l ->
  (forall px py c c', In (px, py, c) l -> In (px, py, c') l -> c' = c) ->
  exists d', draw_all l d = Some (tt, d') /\ drawn d d' l.
Proof.
  intros Ht Hs Hpos Hagree.
  destruct (draw_all_read l d Ht Hs Hpos) as (d'&Hrun&Hsame&Hread).
  exists d'. split; [exact Hrun|]. split; [exact Hsame|]. split.
  - intros px py c Hin Hpx Hpy. rewrite Hread by lia.
    rewrite (painted_unique (height d) l px py c); [reflexivity|exact Hin|lia|lia|].
    intros c' Hin'. eapply Hagree; eassumption.
  - intros px py Hpx Hpy Hdiff. rewrite Hread in Hdiff by lia.
    destruct (painted (height d) l px py) as [c|] eqn:E; [|congruence].
    apply painted_Some in E as (Hin&_&Hh). exists c. split; assumption.
Qed.

Lemma upto_length (n : nat) (i : Z) : length (upto n i) = n.
Proof. revert i. induction n as [|n IH]; intros i; cbn; [|rewrite IH]; reflexivity. Qed.

Lemma upto_In (n : nat) (i k : Z) :
  In k (upto n i) <-> i <= k < i + Z.of_nat n.
Proof.
  revert i. induction n as [|n IH]; intros i; cbn [upto In].
  - lia.
  - rewrite IH. lia.
Qed.

Lemma for_from_draw (f g : Z -> Z) (c : Color) (n : nat) (i : Z) (d : t) :
  for_from n i (fun k => Draw_Pixel (f k) (g k) c) d
  = draw_all (map (fun k => (f k, g k, c)) (upto n i)) d.
Proof.
  revert i d. induction n as [|n IH]; intros i d; [reflexivity|].
  cbn [for_from upto map draw_all]. unfold bind.
  destruct (Draw_Pixel (f i) (g i) c d) as [[u d1]|]; [apply IH | reflexivity].
Qed.

Lemma Draw_Line_H_calls (d : t) (x y len : Z) (c : Color) :
  Draw_Line_H x y len c d = draw_all (line_H_calls u8 x y len c) d.
Proof.
  unfold Draw_Line_H, for_u8, line_H_calls.
  apply (for_from_draw (fun i => u8 (x + i)) (fun _ => y)).
Qed.

Lemma Draw_Line_V_calls (d : t) (x y len : Z) (c : Color) :
  Draw_Line_V x y len c d = draw_all (line_V_calls u8 x y len c) d.
Proof.
  unfold Draw_Line_V, for_u8, line_V_calls.
  apply (for_from_draw (fun _ => x) (fun i => u8 (y + i))).
Qed.

Lemma line_H_calls_In (wrap : Z -> Z) (x y len px py : Z) (c c' : Color) :
  In (px, py, c') (line_H_calls wrap x y len c) -> c' = c.
Proof.
  unfold line_H_calls. rewrite in_map_iff. intros (i&[= _ _ ->]&_). reflexivity.
Qed.

Lemma line_V_calls_In (wrap : Z -> Z) (x y len px py : Z) (c c' : Color) :
  In (px, py, c') (line_V_calls wrap x y len c) -> c' = c.
Proof.
  unfold line_V_calls. rewrite in_map_iff. intros (i&[= _ _ ->]&_). reflexivity.
Qed.

Lemma Draw_Line_H_drawn (d : t) (x y len : Z) (c : Color) :
  typed d -> supported d -> 0 <= y -> 0 <= len ->
  line_H_drawn u8 d x y len c.
Proof.
  intros Ht Hs Hy Hlen. unfold line_H_drawn.
  split; [unfold line_H_calls; rewrite length_map, upto_length; lia|].
  split; [apply Draw_Line_H_calls|].
  rewrite Draw_Line_H_calls. apply draw_all_drawn; [assumption|assumption| |].
  - unfold line_H_calls. apply Forall_forall. intros p Hp.
    apply list_elem_of_In, in_map_iff in Hp as (i&<-&_). cbn.
    split; [apply u8_range | exact Hy].
  - intros px py c1 c2 H1 H2.
    apply line_H_calls_In in H1, H2. congruence.
Qed.

Lemma Draw_Line_V_drawn (d : t) (x y len : Z) (c : Color) :
  typed d -> supported d -> 0 <= x -> 0 <= len ->
  line_V_drawn u8 d x y len c.
Proof.
  intros Ht Hs Hx Hlen. unfold line_V_drawn.
  split; [unfold line_V_calls; rewrite length_map, upto_length; lia|].
  split; [apply Draw_Line_V_calls|].
  rewrite Draw_Line_V_calls. apply draw_all_drawn; [assumption|assumption| |].
  - unfold line_V_calls. apply Forall_forall. intros p Hp.
    apply list_elem_of_In, in_map_iff in Hp as (i&<-&_). cbn.
    split; [exact Hx | apply u8_range].
  - intros px py c1 c2 H1 H2.
    apply line_V_calls_In in H1, H2. congruence.
Qed.

(** ** [Write_Char] *)

Lemma land_0x8000 (a : Z) : negb (Z.land a 0x8000 =? 0) = Z.testbit a 15.
Proof.
  change 0x8000 with (2 ^ 15).
  destruct (Z.testbit a 15) eqn:E.
  - apply negb_true_iff, Z.eqb_neq. intros H0.
    assert (Hb : Z.testbit (Z.land a (2 ^ 15)) 15 = true).
    { rewrite Z.land_spec, E, Z.pow2_bits_true by lia. reflexivity. }
    rewrite H0, Z.bits_0 in Hb. discriminate.
  - apply negb_false_iff, Z.eqb_eq. apply Z.bits_inj'. intros n Hn.
    rewrite Z.land_spec, Z.bits_0, Z.pow2_bits_eqb by lia.
    destruct (Z.eqb_spec 15 n) as [<-|_]; [rewrite E; reflexivity|].
    apply andb_false_r.
Qed.

(** The test [(row << x) & 0x8000] reads bit [15 - x] of the row. *)
Lemma glyph_bit_testbit (row x : Z) :
  glyph_bit row x = Z.testbit row (15 - x).
Proof.
  unfold glyph_bit. rewrite land_0x8000. apply Z.shiftl_spec. lia.
Qed.

Lemma draw_all_app (l1 l2 : list (Z * Z * Color)) (d : t) :
  draw_all (l1 ++ l2) d = (draw_all l1 ;; draw_all l2) d.
Proof.
  revert d. induction l1 as [|[[x y] c] l1 IH]; intros d; [reflexivity|].
  cbn [app draw_all]. unfold bind in *.
  destruct (Draw_Pixel x y c d) as [[u d1]|]; [apply IH | reflexivity].
Qed.

Lemma Write_Char_loops (chr : Z) (color : Color) :
  Write_Char chr color
  = ((fh <- gets (fun d => FontHeight (font d)) ;;
      for_u8 fh (Write_Char_row chr color)) ;;
     modify (fun d =>
       set_Coordinates (mkCursor (u8 (X (Coordinates d) + FontWidth (font d)))
                                 (Y (Coordinates d))) d)).
Proof. reflexivity. Qed.

Lemma Write_Char_column_call (color : Color) (row y x : Z) (d : t) :
  Write_Char_column color row y x d
  = Draw_Pixel (u8 (X (Coordinates d) + x)) (u8 (Y (Coordinates d) + y))
               (ink color (Z.testbit row (15 - x))) d.
Proof.
  unfold Write_Char_column, bind, gets. rewrite glyph_bit_testbit.
  destruct color, (Z.testbit row (15 - x)); reflexivity.
Qed.

Lemma Write_Char_columns (color : Color) (row y : Z) (p : Cursor)
    (n : nat) (x0 : Z) (d : t) :
  Coordinates d = p ->
  for_from n x0 (Write_Char_column color row y) d
  = draw_all (map (fun x => (u8 (X p + x), u8 (Y p + y),
                             ink color (Z.testbit row (15 - x))))
                  (upto n x0)) d.
Proof.
  revert x0 d. induction n as [|n IH]; intros x0 d Hp; [reflexivity|].
  cbn [for_from upto map draw_all]. unfold bind.
  rewrite Write_Char_column_call, Hp.
  destruct (Draw_Pixel _ _ _ d) as [[u d1]|] eqn:E; [|reflexivity].
  apply IH. rewrite <- Hp. apply (Draw_Pixel_same _ _ _ _ _ _ E).
Qed.

Lemma Write_Char_row_calls (chr : Z) (color : Color) (y : Z) (d : t) :
  (exists r, glyph_row (font d) chr y = Some r) ->
  Write_Char_row chr color y d
  = draw_all (glyph_row_calls u8 (font d) (Coordinates d) chr color y) d.
Proof.
  intros [r Hr]. unfold Write_Char_row, bind, gets, lift, glyph_row_calls.
  unfold glyph_row in *.
  destruct (array_get (data (font d)) ((chr - 32) * FontHeight (font d) + y))
    as [r0|]; [|discriminate].
  unfold for_u8. cbn [row_bit].
  apply Write_Char_columns. reflexivity.
Qed.

Lemma Write_Char_rows (chr : Z) (color : Color) (f : FontDef) (p : Cursor)
    (n : nat) (y0 : Z) (d : t) :
  font d = f -> Coordinates d = p ->
  (forall y, y0 <= y < y0 + Z.of_nat n -> exists r, glyph_row f chr y = Some r) ->
  for_from n y0 (Write_Char_row chr color) d
  = draw_all (flat_map (glyph_row_calls u8 f p chr color) (upto n y0)) d.
Proof.
  revert y0 d. induction n as [|n IH]; intros y0 d Hf Hp Hrows; [reflexivity|].
  cbn [for_from upto flat_map]. rewrite draw_all_app. unfold bind.
  rewrite Write_Char_row_calls by (rewrite Hf; apply Hrows; lia).
  rewrite Hf, Hp.
  destruct (draw_all (glyph_row_calls u8 f p chr color y0) d) as [[u d1]|] eqn:E;
    [|reflexivity].
  pose proof (draw_all_same _ _ _ _ E) as (_&Hc&Hfont&_).
  apply IH; [congruence | congruence |].
  intros y Hy. apply Hrows. lia.
Qed.

(** [Write_Char] is the run of its glyph's calls followed by the move of the
    cursor. *)
Lemma Write_Char_calls (chr : Z) (color : Color) (d : t) :
  glyph_present (font d) chr ->
  Write_Char chr color d
  = (draw_all (glyph_calls u8 (font d) (Coordinates d) chr color) ;;
     modify (fun d =>
       set_Coordinates (mkCursor (u8 (X (Coordinates d) + FontWidth (font d)))
                                 (Y (Coordinates d))) d)) d.
Proof.
  intros Hg. rewrite Write_Char_loops. unfold bind, gets, for_u8.
  unfold glyph_calls.
  rewrite (Write_Char_rows chr color (font d) (Coordinates d))
    by (try reflexivity; intros y Hy; apply Hg; lia).
  reflexivity.
Qed.

Lemma glyph_calls_In (wrap : Z -> Z) (f : FontDef) (p : Cursor) (chr : Z)
    (color : Color) (px py : Z) (c : Color) :
  In (px, py, c) (glyph_calls wrap f p chr color) <->
  exists x y,
    0 <= x < FontWidth f /\ 0 <= y < FontHeight f /\
    px = wrap (X p + x) /\ py = wrap (Y p + y) /\
    c = ink color (row_bit (glyph_row f chr y) x).
Proof.
  unfold glyph_calls, glyph_row_calls. rewrite in_flat_map. split.
  - intros (y&Hy&Hin). apply in_map_iff in Hin as (x&[= <- <- <-]&Hx).
    apply upto_In in Hx, Hy. exists x, y. repeat split; lia.
  - intros (x&y&Hx&Hy&->&->&->). exists y.
    split; [apply upto_In; lia|]. apply in_map_iff. exists x.
    split; [reflexivity | apply upto_In; lia].
Qed.

(** Within one byte's worth of offsets, wrapping keeps pixels apart. *)
Lemma u8_add_inj (a x x' : Z) :
  0 <= x < 256 -> 0 <= x' < 256 -> u8 (a + x) = u8 (a + x') -> x = x'.
Proof.
  unfold u8. intros Hx Hx' H. Z.div_mod_to_equations. lia.
Qed.

Lemma read_pixel_set_Coordinates (d : t) (p : Cursor) (px py : Z) :
  read_pixel (set_Coordinates p d) px py = read_pixel d px py.
Proof. reflexivity. Qed.

Lemma Write_Char_drawn (d : t) (chr : Z) (color : Color) :
  typed d -> supported d ->
  is_u8 (FontWidth (font d)) -> is_u8 (FontHeight (font d)) ->
  glyph_present (font d) chr ->
  glyph_drawn u8 d chr color.
Proof.
  intros Ht Hs Hw Hh Hg. unfold is_u8 in Hw, Hh.
  destruct (draw_all_drawn (glyph_calls u8 (font d) (Coordinates d) chr color) d)
    as (d1&Hrun&Hsame&Hon&Hoff); [assumption|assumption| | |].
  - apply Forall_forall. intros [[px py] c] Hin.
    apply list_elem_of_In, glyph_calls_In in Hin as (x&y&_&_&->&->&_).
    cbn. split; apply u8_range.
  - intros px py c c' H1 H2.
    apply glyph_calls_In in H1 as (x1&y1&?&?&Hx1&Hy1&->).
    apply glyph_calls_In in H2 as (x2&y2&?&?&Hx2&Hy2&->).
    rewrite Hx1 in Hx2. rewrite Hy1 in Hy2.
    apply u8_add_inj in Hx2, Hy2; try lia. congruence.
  - pose proof Hsame as (_&Hc&Hf&Hi&He&Hcn&_).
    exists d1. eexists. split; [exact Hrun|].
    split; [rewrite Write_Char_calls by exact Hg; unfold bind; rewrite Hrun;
            unfold modify; rewrite Hc, Hf; reflexivity|].
    split; [reflexivity|].
    split; [|split; [|repeat split; assumption]].
    + intros x y Hx Hy Hpx Hpy. rewrite read_pixel_set_Coordinates.
      apply Hon; [|assumption|assumption].
      apply glyph_calls_In. exists x, y. repeat split; lia.
    + intros px py Hpx Hpy Hdiff. rewrite read_pixel_set_Coordinates in Hdiff.
      destruct (Hoff px py Hpx Hpy Hdiff) as (c&Hin&Hlt).
      apply glyph_calls_In in Hin as (x&y&?&?&->&->&_).
      exists x, y. repeat split; try lia.
Qed.

(** ** [Set_Cursor] *)

Lemma Set_Cursor_clamped (d : t) (x y : Z) :
  exists d',
    Set_Cursor x y d = Some (tt, d') /\
    cursor_clamped d d' x y /\
    d' = set_Coordinates (Coordinates d') d.
Proof.
  eexists. split; [reflexivity|]. unfold cursor_clamped. cbn.
  split; [|reflexivity].
  destruct (Z.geb_spec x width), (Z.geb_spec y (height d)); repeat split; lia.
Qed.

(** ** The bus *)

Section Protocol.

Variable HAL_I2C_Mem_Write :
  list Transfer -> Z -> Z -> Z -> list Z -> Z -> Z -> Z.

Local Abbreviation HAL := HAL_I2C_Mem_Write.

Lemma Write_Command_sent (c : Z) (d : t) :
  Write_Command HAL c d = Some (tt, sent HAL c d).
Proof. reflexivity. Qed.

Lemma Write_Data_transferred (b : list Z) (d : t) :
  Write_Data HAL b d
  = Some (tt, transferred HAL control_b_data b (height d * width / 8) d).
Proof. reflexivity. Qed.

Lemma transferred_members (control : Z) (bytes : list Z) (size : Z) (d : t) :
  let d' := transferred HAL control bytes size d in
  conn d' = conn d ++ [mkTransfer (address d) control bytes size] /\
  last_error d'
  = latch (HAL (conn d) (address d) control 1 bytes size 1000) (last_error d) /\
  height d' = height d /\
  hard_conf d' = hard_conf d /\
  address d' = address d /\
  font d' = font d /\
  buffer d' = buffer d /\
  isinitialized d' = isinitialized d /\
  Coordinates d' = Coordinates d.
Proof.
  unfold transferred, latch.
  destruct (HAL (conn d) (address d) control 1 bytes size 1000 =? 0);
    cbn; repeat split.
Qed.

Lemma latch_nonzero (s e : Z) : e <> 0 -> latch s e <> 0.
Proof. unfold latch. destruct (Z.eqb_spec s 0); auto. Qed.

Lemma sent_all_members (cs : list Z) (d : t) :
  let d' := sent_all HAL cs d in
  conn d' = conn d ++ map (command (address d)) cs /\
  height d' = height d /\
  hard_conf d' = hard_conf d /\
  address d' = address d /\
  font d' = font d /\
  buffer d' = buffer d /\
  isinitialized d' = isinitialized d /\
  Coordinates d' = Coordinates d.
Proof.
  revert d. induction cs as [|c cs IH]; intros d.
  - cbn. rewrite app_nil_r. repeat split.
  - cbn [sent_all fold_left map].
    destruct (IH (sent HAL c d)) as (H1&H2&H3&H4&H5&H6&H7&H8).
    destruct (transferred_members control_b_command [c] 1 d)
      as (G1&_&G2&G3&G4&G5&G6&G7&G8).
    fold (sent HAL c d) in *. unfold sent_all in *.
    rewrite H1, H2, H3, H4, H5, H6, H7, H8, G1, G2, G3, G4, G5, G6, G7, G8.
    rewrite <- app_assoc. repeat split.
Qed.

Lemma sent_all_error (cs : list Z) (d : t) :
  last_error d <> 0 -> last_error (sent_all HAL cs d) <> 0.
Proof.
  revert d. induction cs as [|c cs IH]; intros d He; [exact He|].
  cbn [sent_all fold_left]. apply IH.
  destruct (transferred_members control_b_command [c] 1 d) as (_&G&_).
  fold (sent HAL c d) in G. rewrite G. apply latch_nonzero. exact He.
Qed.

(** When the peripheral answers every transfer with 0 nothing is latched. *)
Lemma sent_all_quiet (cs : list Z) (d : t) :
  (forall l a m n b s w, HAL l a m n b s w = 0) ->
  last_error (sent_all HAL cs d) = last_error d.
Proof.
  intros Hq. revert d. induction cs as [|c cs IH]; intros d; [reflexivity|].
  cbn [sent_all fold_left]. fold (sent_all HAL cs (sent HAL c d)). rewrite IH.
  destruct (transferred_members control_b_command [c] 1 d) as (_&G&_).
  fold (sent HAL c d) in G. rewrite G, Hq. reflexivity.
Qed.

Lemma bind_Write_Command {A : Type} (c : Z) (k : M A) (d : t) :
  (Write_Command HAL c ;; k) d = k (sent HAL c d).
Proof. reflexivity. Qed.

Lemma bind_gets {A B : Type} (f : t -> A) (k : A -> M B) (d : t) :
  (x <- gets f ;; k x) d = k (f d) d.
Proof. reflexivity. Qed.

Lemma sent_height (c : Z) (d : t) : height (sent HAL c d) = height d.
Proof. apply (transferred_members control_b_command [c] 1 d). Qed.

Lemma sent_hard_conf (c : Z) (d : t) : hard_conf (sent HAL c d) = hard_conf d.
Proof. apply (transferred_members control_b_command [c] 1 d). Qed.

Lemma sent_buffer (c : Z) (d : t) : buffer (sent HAL c d) = buffer d.
Proof. apply (transferred_members control_b_command [c] 1 d). Qed.

(** [Update_Screen] as six commands and one data transfer. *)
Lemma Update_Screen_steps (d : t) :
  Update_Screen HAL d
  = Some (tt, transferred HAL control_b_data (buffer d) (height d * width / 8)
                (sent_all HAL (refresh_commands d) d)).
Proof.
  unfold Update_Screen.
  rewrite !bind_Write_Command, bind_gets, bind_Write_Command, bind_gets.
  rewrite Write_Data_transferred.
  rewrite !sent_height, !sent_buffer. reflexivity.
Qed.

Lemma bind_bind {A B C : Type} (m : M A) (f : A -> M B) (g : B -> M C) (d : t) :
  (y <- (x <- m ;; f x) ;; g y) d = (x <- m ;; y <- f x ;; g y) d.
Proof. unfold bind. destruct (m d) as [[a d1]|]; reflexivity. Qed.

Lemma bind_Update_Screen {A : Type} (k : M A) (d : t) :
  (Update_Screen HAL ;; k) d
  = k (transferred HAL control_b_data (buffer d) (height d * width / 8)
         (sent_all HAL (refresh_commands d) d)).
Proof. unfold bind. rewrite Update_Screen_steps. reflexivity. Qed.

Lemma bind_Clean {A : Type} (k : M A) (d : t) :
  (Clean ;; k) d = k (set_buffer (map (fun _ => 0) (buffer d)) d).
Proof. reflexivity. Qed.

Lemma Initialize_steps (d : t) :
  Initialize HAL d
  = Some (last_error (initialized_state HAL d) =? 0,
          set_isinitialized (last_error (initialized_state HAL d) =? 0)
                            (initialized_state HAL d)).
Proof.
  unfold Initialize, Display_Off, Display_On, Mirror_Screen, Flip_Screen,
    Invert_Colors, Set_Brightness. cbn [negb].
  repeat first [rewrite bind_Write_Command | rewrite bind_gets
               | rewrite bind_bind | rewrite sent_height
               | rewrite sent_hard_conf].
  rewrite bind_Clean, bind_Update_Screen, bind_gets.
  unfold initialized_state. cbn [sent_all init_commands fold_left].
  destruct (last_error _ =? 0); reflexivity.
Qed.

Lemma initialized_state_members (d : t) :
  let d' := initialized_state HAL d in
  conn d' = conn d ++ map (command (address d)) (init_commands d)
                   ++ map (command (address d)) (refresh_commands d)
                   ++ [flush d (map (fun _ => Color_value BLACK) (buffer d))] /\
  buffer d' = map (fun _ => Color_value BLACK) (buffer d) /\
  height d' = height d /\
  hard_conf d' = hard_conf d /\
  address d' = address d /\
  font d' = font d /\
  isinitialized d' = isinitialized d /\
  Coordinates d' = Coordinates d.
Proof.
  unfold initialized_state.
  set (d1 := sent_all HAL (init_commands d) d).
  set (d2 := set_buffer (map (fun _ => 0) (buffer d1)) d1).
  destruct (sent_all_members (init_commands d) d)
    as (A1&A2&A3&A4&A5&A6&A7&A8). fold d1 in A1, A2, A3, A4, A5, A6, A7, A8.
  destruct (sent_all_members (refresh_commands d2) d2)
    as (B1&B2&B3&B4&B5&B6&B7&B8).
  destruct (transferred_members control_b_data (buffer d2)
              (height d2 * width / 8) (sent_all HAL (refresh_commands d2) d2))
    as (C1&_&C2&C3&C4&C5&C6&C7&C8).
  cbv zeta. rewrite C1, C2, C3, C4, C5, C6, C7, C8.
  rewrite B1, B2, B3, B4, B5, B6, B7, B8.
  assert (Hh : height d2 = height d) by exact A2.
  assert (Ha : address d2 = address d) by exact A4.
  assert (Hb : buffer d2 = map (fun _ => Color_value BLACK) (buffer d))
    by (unfold d2; cbn [buffer set_buffer]; rewrite A6; reflexivity).
  assert (Hc : conn d2 = conn d1) by reflexivity.
  assert (Hr : refresh_commands d2 = refresh_commands d)
    by (unfold refresh_commands; rewrite Hh; reflexivity).
  rewrite Hr, Hh, Ha, Hb, Hc, A1. unfold flush.
  rewrite <- !app_assoc.
  repeat split; assumption.
Qed.

Lemma transferred_error (control : Z) (bytes : list Z) (size : Z) (d : t) :
  last_error d <> 0 -> last_error (transferred HAL control bytes size d) <> 0.
Proof.
  intros He. destruct (transferred_members control bytes size d) as (_&G&_).
  rewrite G. apply latch_nonzero. exact He.
Qed.

Lemma initialized_state_error (d : t) :
  last_error d <> 0 -> last_error (initialized_state HAL d) <> 0.
Proof.
  intros He. unfold initialized_state.
  apply transferred_error, sent_all_error. cbn [last_error set_buffer].
  apply sent_all_error. exact He.
Qed.

Lemma initialized_state_quiet (d : t) :
  (forall l a m n b s w, HAL l a m n b s w = 0) ->
  last_error (initialized_state HAL d) = last_error d.
Proof.
  intros Hq. unfold initialized_state.
  match goal with
  | |- last_error (transferred HAL ?c ?b ?s ?e) = _ =>
      destruct (transferred_members c b s e) as (_&G&_)
  end.
  rewrite G, Hq. unfold latch. cbn [Z.eqb].
  rewrite sent_all_quiet by exact Hq. cbn [last_error set_buffer].
  apply sent_all_quiet. exact Hq.
Qed.

(** ** Errors stay latched *)

Lemma keeps_error_ret {A : Type} (a : A) : keeps_error (ret a).
Proof. intros d a' d' [= _ <-] He. exact He. Qed.

Lemma keeps_error_bind {A B : Type} (m : M A) (k : A -> M B) :
  keeps_error m -> (forall a, keeps_error (k a)) -> keeps_error (bind m k).
Proof.
  intros Hm Hk d b d' Hrun He. unfold bind in Hrun.
  destruct (m d) as [[a d1]|] eqn:E; [|discriminate].
  eapply Hk; [exact Hrun|]. eapply Hm; eassumption.
Qed.

Lemma keeps_error_gets {A : Type} (f : t -> A) : keeps_error (gets f).
Proof. intros d a d' [= _ <-] He. exact He. Qed.

Lemma keeps_error_lift {A : Type} (o : option A) : keeps_error (lift o).
Proof. intros d a d' H He. destruct o; [|discriminate]. injection H as _ <-. exact He. Qed.

Lemma keeps_error_modify (f : t -> t) :
  (forall d, last_error (f d) = last_error d) -> keeps_error (modify f).
Proof. intros Hf d a d' [= _ <-] He. rewrite Hf. exact He. Qed.

Lemma keeps_error_for_from (n : nat) (i : Z) (body : Z -> M unit) :
  (forall k, keeps_error (body k)) -> keeps_error (for_from n i body).
Proof.
  intros Hb. revert i. induction n as [|n IH]; intros i; cbn [for_from].
  - apply keeps_error_ret.
  - apply keeps_error_bind; [apply Hb | intros _; apply IH].
Qed.

Lemma keeps_error_for_u8 (bound : Z) (body : Z -> M unit) :
  (forall k, keeps_error (body k)) -> keeps_error (for_u8 bound body).
Proof. apply keeps_error_for_from. Qed.

Lemma keeps_error_Draw_Pixel (x y : Z) (c : Color) :
  keeps_error (Draw_Pixel x y c).
Proof.
  intros d [] d' H He. apply Draw_Pixel_same in H as (_&_&_&_&Hl&_).
  rewrite Hl. exact He.
Qed.

Lemma keeps_error_Write_Command (c : Z) : keeps_error (Write_Command HAL c).
Proof.
  intros d a d' H He. rewrite Write_Command_sent in H. injection H as _ <-.
  apply transferred_error. exact He.
Qed.

Lemma keeps_error_Write_Data (b : list Z) : keeps_error (Write_Data HAL b).
Proof.
  intros d a d' H He. rewrite Write_Data_transferred in H. injection H as _ <-.
  apply transferred_error. exact He.
Qed.

Lemma keeps_error_Draw_Image (image : list Z) : keeps_error (Draw_Image image).
Proof.
  intros d a d' H He. unfold Draw_Image, fault in H.
  destruct (Z.of_nat (length image) <? buffer_size); [discriminate|].
  injection H as _ <-. exact He.
Qed.

Lemma keeps_error_Set_Cursor (x y : Z) : keeps_error (Set_Cursor x y).
Proof. intros d a d' [= _ <-] He. exact He. Qed.

Create HintDb sticky.

#[local] Hint Resolve keeps_error_ret keeps_error_gets keeps_error_lift
  keeps_error_Draw_Pixel keeps_error_Write_Command keeps_error_Write_Data
  keeps_error_Draw_Image keeps_error_Set_Cursor : sticky.

(** Walk through a member function: binds, loops, branches, then the leaves
    from the hint database. *)
Ltac sticky :=
  repeat first
    [ progress intros
    | apply keeps_error_bind
    | apply keeps_error_for_u8
    | apply keeps_error_modify; reflexivity
    | solve [auto with sticky]
    | match goal with
      | |- keeps_error (if ?b then _ else _) => destruct b
      | |- keeps_error (match ?c with BLACK => _ | WHITE => _ end) => destruct c
      end ].

Lemma keeps_error_Write_Char (chr : Z) (color : Color) :
  keeps_error (Write_Char chr color).
Proof. unfold Write_Char. sticky. Qed.

Lemma keeps_error_Write_String_with (color : Color) (str : list Z) :
  keeps_error (Write_String_with color str).
Proof.
  induction str as [|c str IH]; cbn [Write_String_with]; [sticky|].
  destruct (c =? 0); [sticky|].
  apply keeps_error_bind; [apply keeps_error_Write_Char | intros _; exact IH].
Qed.

Lemma keeps_error_Update_Screen : keeps_error (Update_Screen HAL).
Proof. unfold Update_Screen. sticky. Qed.

Lemma keeps_error_Initialize : keeps_error (Initialize HAL).
Proof.
  intros d b d' H He. rewrite Initialize_steps in H. injection H as _ <-.
  cbn [last_error set_isinitialized]. apply initialized_state_error. exact He.
Qed.

Lemma keeps_error_call (op : Operation) :
  op <> Call_Clean_Errors -> keeps_error (call HAL op).
Proof.
  intros Hop.
  destruct op; cbn [call];
    [ apply keeps_error_bind;
        [apply keeps_error_Initialize | intros; apply keeps_error_ret]
    | apply keeps_error_Update_Screen
    | unfold Clean, Fill; sticky
    | unfold Fill; sticky
    | sticky
    | apply keeps_error_Write_String_with
    | apply keeps_error_Write_String_with
    | sticky
    | sticky
    | unfold Draw_Line_H; sticky
    | unfold Draw_Line_V; sticky
    | unfold Draw_Square, Draw_Line_H, Draw_Line_V; sticky
    | unfold Draw_Waveform; sticky
    | unfold Display_Off; sticky
    | unfold Display_On; sticky
    | unfold Set_Brightness; sticky
    | unfold Invert_Colors; sticky
    | unfold Flip_Screen; sticky
    | unfold Mirror_Screen; sticky
    | unfold Set_Font_size; sticky
    | unfold IsInitialized; sticky
    | unfold Get_Last_Error; sticky
    | congruence
    | sticky
    | sticky
    | apply keeps_error_Write_Char ].
Qed.

(** ** The protocol, claim by claim *)

Lemma refresh_size (d : t) :
  typed d -> supported d ->
  0 <= height d * width / 8 <= Z.of_nat (length (buffer d)).
Proof.
  intros [Hh Hb] Hs. unfold supported in Hs. unfold is_u8 in Hh. rewrite Hb.
  unfold width, buffer_size. change (64 / 8 * 128) with 1024.
  Z.div_mod_to_equations. lia.
Qed.

(** C2.  [Initialize] returns, and what it has by then asked of the bus is,
    in this order: the command bytes [0xAE, 0xD5, 0x80, 0xA8, height-1, 0xD3,
    0x00, 0x40, 0x8D, 0x14, 0xA1, 0xC8, 0xDA, hard_conf, 0x81, 150, 0xD9,
    0x22, 0xDB, 0x40, 0xA4, 0xA6, 0x20, 0x00, 0x21, 0x00, width-1, 0x22, 0x00,
    height/8-1, 0xAF] (each byte as the [uint8_t] it is passed as), then the
    six commands and the data transfer of one [Update_Screen], the latter
    reading a framebuffer that is BLACK throughout, as is the framebuffer the
    object is left with. *)
Theorem Initialize_command_sequence (d : t) :
  exists b d',
    Initialize HAL d = Some (b, d') /\
    conn d'
    = conn d
      ++ map (command (address d))
           [0xAE; 0xD5; 0x80; 0xA8; u8 (height d - 1); 0xD3; 0x00; 0x40;
            0x8D; 0x14; 0xA1; 0xC8; 0xDA; hard_conf d; 0x81; 150; 0xD9; 0x22;
            0xDB; 0x40; 0xA4; 0xA6; 0x20; 0x00; 0x21; 0x00; u8 (width - 1);
            0x22; 0x00; u8 (height d / 8 - 1); 0xAF]
      ++ map (command (address d))
           [0x21; 0x00; 127; 0x22; 0x00; u8 (height d / 8 - 1)]
      ++ [mkTransfer (address d) control_b_data
                     (map (fun _ => Color_value BLACK) (buffer d))
                     (height d * width / 8)] /\
    buffer d' = map (fun _ => Color_value BLACK) (buffer d).
Proof.
  eexists _, _. split; [apply Initialize_steps|].
  cbn [conn buffer set_isinitialized].
  destruct (initialized_state_members d) as (Hc&Hb&_).
  split; [|exact Hb].
  rewrite Hc. unfold init_commands, refresh_commands, flush. reflexivity.
Qed.

(** C3 (amended).  On a display of height at most 64, [Update_Screen] sends
    exactly the command bytes [0x21, 0x00, 127, 0x22, 0x00, height/8 - 1]
    (the last as the [uint8_t] it is passed as), in that order, followed by
    one data block: the first [width * height / 8] bytes of the
    framebuffer. *)
Theorem Update_Screen_sends_frame (d : t) :
  typed d -> supported d ->
  exists d', Update_Screen HAL d = Some (tt, d') /\ refreshed d d'.
Proof.
  intros Ht Hs. eexists. split; [apply Update_Screen_steps|].
  destruct (sent_all_members (refresh_commands d) d) as (A1&_&_&A4&_&A6&_).
  destruct (transferred_members control_b_data (buffer d)
              (height d * width / 8) (sent_all HAL (refresh_commands d) d))
    as (C1&_&_&_&_&_&C6&_).
  pose proof (refresh_size d Ht Hs) as Hsz.
  unfold refreshed. rewrite C1, C6, A1, A4, A6, <- app_assoc.
  split; [reflexivity|]. split; [reflexivity|].
  exists (take (Z.to_nat (height d * width / 8)) (buffer d)).
  split.
  - unfold payload, flush. cbn [Size pData].
    replace (0 <=? height d * width / 8) with true by (symmetry; lia).
    replace (height d * width / 8 <=? Z.of_nat (length (buffer d))) with true
      by (symmetry; lia).
    reflexivity.
  - rewrite length_take. rewrite (Z.mul_comm width (height d)).
    split; [lia|]. f_equal. lia.
Qed.

(** C6.  A command or data transfer answered with a nonzero status stores
    that status in [last_error], one answered with zero leaves [last_error]
    alone; [Get_Last_Error] returns the field and changes nothing;
    [Clean_Errors] sets it to 0; and on a display of height at most 64 no
    other member function, public or private, takes a nonzero [last_error]
    back to 0. *)
Theorem last_error_latches (d : t) (c : Z) (b : list Z) (op : Operation) :
  (exists d',
      Write_Command HAL c d = Some (tt, d') /\
      let s := HAL (conn d) (address d) control_b_command 1 [c] 1 1000 in
      (s <> 0 -> last_error d' = s) /\ (s = 0 -> last_error d' = last_error d)) /\
  (exists d',
      Write_Data HAL b d = Some (tt, d') /\
      let s :=
        HAL (conn d) (address d) control_b_data 1 b (height d * width / 8) 1000
      in
      (s <> 0 -> last_error d' = s) /\ (s = 0 -> last_error d' = last_error d)) /\
  Get_Last_Error d = Some (last_error d, d) /\
  (exists d', Clean_Errors d = Some (tt, d') /\ last_error d' = 0) /\
  (op <> Call_Clean_Errors -> supported d ->
   forall a d',
     call HAL op d = Some (a, d') ->
     last_error d <> 0 -> last_error d' <> 0).
Proof.
  split; [|split; [|split; [|split]]].
  - eexists. split; [apply Write_Command_sent|].
    destruct (transferred_members control_b_command [c] 1 d) as (_&G&_).
    fold (sent HAL c d) in G. cbv zeta. rewrite G. unfold latch.
    split; intros Hs.
    + destruct (Z.eqb_spec (HAL (conn d) (address d) control_b_command 1 [c] 1 1000) 0);
        [contradiction | reflexivity].
    + rewrite Hs. reflexivity.
  - eexists. split; [apply Write_Data_transferred|].
    destruct (transferred_members control_b_data b (height d * width / 8) d)
      as (_&G&_).
    cbv zeta. rewrite G. unfold latch.
    split; intros Hs.
    + destruct (Z.eqb_spec
                  (HAL (conn d) (address d) control_b_data 1 b
                       (height d * width / 8) 1000) 0);
        [contradiction | reflexivity].
    + rewrite Hs. reflexivity.
  - reflexivity.
  - eexists. split; reflexivity.
  - intros Hop _ a d' Hrun He.
    exact (keeps_error_call op Hop d a d' Hrun He).
Qed.

(** C7.  [Initialize] returns its [isinitialized], which it sets to true
    exactly when [last_error] is 0 once the whole sequence has gone out; it
    never clears [last_error]: with an error latched beforehand it reports
    failure whatever the bus answers, and when the bus answers 0 throughout
    [last_error] is what it was.  The constructor called with a height above
    64 yields an object with [last_error = 0xff], which is not 0, and with
    nothing asked of the bus. *)
Theorem Initialize_reports_latched_error (d : t) :
  (exists b d',
      Initialize HAL d = Some (b, d') /\
      isinitialized d' = b /\
      (b = true <-> last_error d' = 0) /\
      (last_error d <> 0 -> b = false /\ last_error d' <> 0) /\
      ((forall l a m n p s w, HAL l a m n p s w = 0) ->
       last_error d' = last_error d)) /\
  (forall connection_port screen_height hardware_configuration device_address
          font_7x10 buffer0 Coordinates0,
      screen_height > 64 ->
      let o := new connection_port screen_height hardware_configuration
                   device_address font_7x10 buffer0 Coordinates0 in
      last_error o = 0xff /\ last_error o <> 0 /\ conn o = connection_port).
Proof.
  split.
  - eexists _, _. split; [apply Initialize_steps|].
    cbn [isinitialized last_error set_isinitialized].
    split; [reflexivity|]. split; [|split].
    + split; intros H; [apply Z.eqb_eq | apply Z.eqb_eq]; exact H.
    + intros He. pose proof (initialized_state_error d He) as Hne.
      split; [apply Z.eqb_neq|]; exact Hne.
    + apply initialized_state_quiet.
  - intros cp h hc a f b0 c0 Hh. unfold new.
    replace (h >? 64) with true by (symmetry; lia).
    cbn. repeat split. discriminate.
Qed.

End Protocol.

(** ** The unit tests of the repository, run on the model *)

Example test_fills_screen_buffer :
  let data := wire (conn (after (Fill WHITE ;; Update_Screen quiet_bus) oled64)) in
  length data = 1030%nat /\
  take 6 data = [0x21; 0; 127; 0x22; 0; 7] /\
  drop 6 data = repeat 0xff 1024.
Proof. vm_compute. repeat split. Qed.

Example test_draws_pixels :
  let data :=
    wire (conn (after (Clean ;; Draw_Pixel 0 0 WHITE ;; Draw_Pixel 1 3 WHITE ;;
                       Draw_Pixel 0 8 WHITE ;; Draw_Pixel 127 63 WHITE ;;
                       Update_Screen quiet_bus) oled64)) in
  length data = 1030%nat /\
  data !! 6%nat = Some 0x01 /\ data !! 7%nat = Some 0x08 /\
  data !! 8%nat = Some 0 /\ data !! (6 + 128)%nat = Some 0x01 /\
  data !! 1029%nat = Some 0x80.
Proof. vm_compute. repeat split. Qed.

Example test_writes_character :
  let data :=
    wire (conn (after (Clean ;; Set_Font_size font_eight ;; Write_String [56] ;;
                       Update_Screen quiet_bus) oled64)) in
  take 7 (drop 6 data) = [0x00; 0x76; 0x89; 0x89; 0x89; 0x76; 0x00] /\
  take 7 (drop (6 + 128) data) = [0; 0; 0; 0; 0; 0; 0].
Proof. vm_compute. repeat split. Qed.

Example test_draw_horizontal_line :
  let data :=
    wire (conn (after (Clean ;; Draw_Line_H 2 3 10 WHITE ;;
                       Update_Screen quiet_bus) oled64)) in
  take 13 (drop 6 data) = [0; 0; 8; 8; 8; 8; 8; 8; 8; 8; 8; 8; 0].
Proof. vm_compute. reflexivity. Qed.

Example test_draw_vertical_line :
  let data :=
    wire (conn (after (Clean ;; Draw_Line_V 1 1 5 WHITE ;;
                       Update_Screen quiet_bus) oled64)) in
  take 3 (drop 6 data) = [0; 0x3e; 0].
Proof. vm_compute. reflexivity. Qed.

Example test_draw_square :
  let data :=
    wire (conn (after (Clean ;; Draw_Square 1 1 4 5 WHITE ;;
                       Draw_Square 6 0 6 0 WHITE ;;
                       Update_Screen quiet_bus) oled64)) in
  take 8 (drop 6 data) = [0; 0x3e; 0x22; 0x22; 0x3e; 0; 0x01; 0].
Proof. vm_compute. reflexivity. Qed.

Example test_draw_waveform :
  let data :=
    wire (conn (after (Clean ;; Draw_Waveform 1 7 [1; 3; 4; 0; 7] 5 WHITE ;;
                       Update_Screen quiet_bus) oled64)) in
  take 7 (drop 6 data) = [0; 0x40; 0x10; 0x08; 0x80; 0x01; 0].
Proof. vm_compute. reflexivity. Qed.

(** For heights from 8 up the two computed bytes are [height - 1] and
    [height / 8 - 1] themselves. *)
Lemma init_commands_bytes (d : t) :
  8 <= height d < 256 ->
  u8 (height d - 1) = height d - 1 /\
  u8 (height d / 8 - 1) = height d / 8 - 1 /\
  u8 (width - 1) = 127.
Proof.
  intros Hh. unfold u8, width. repeat split.
  - apply Z.mod_small. lia.
  - apply Z.mod_small. Z.div_mod_to_equations. lia.
Qed.

(** ** Coordinates that fit in a byte *)

Lemma u8_small (z : Z) : 0 <= z < 256 -> u8 z = z.
Proof. intros Hz. unfold u8. apply Z.mod_small. exact Hz. Qed.

Lemma upto_map_ext {A : Type} (f g : Z -> A) (n : nat) (i : Z) :
  (forall k, i <= k < i + Z.of_nat n -> f k = g k) ->
  map f (upto n i) = map g (upto n i).
Proof.
  intros H. apply map_ext_in. intros k Hk. apply H, upto_In, Hk.
Qed.

Lemma upto_flat_map_ext {A : Type} (f g : Z -> list A) (n : nat) (i : Z) :
  (forall k, i <= k < i + Z.of_nat n -> f k = g k) ->
  flat_map f (upto n i) = flat_map g (upto n i).
Proof.
  revert i. induction n as [|n IH]; intros i H; cbn [upto flat_map];
    [reflexivity|].
  rewrite H by lia. rewrite IH; [reflexivity|].
  intros k Hk. apply H. lia.
Qed.

Lemma line_H_calls_plain (x y len : Z) (c : Color) :
  0 <= x -> x + len <= 256 ->
  line_H_calls (fun z => z) x y len c = line_H_calls u8 x y len c.
Proof.
  intros Hx Hl. unfold line_H_calls. apply upto_map_ext. intros k Hk.
  rewrite u8_small by lia. reflexivity.
Qed.

Lemma line_V_calls_plain (x y len : Z) (c : Color) :
  0 <= y -> y + len <= 256 ->
  line_V_calls (fun z => z) x y len c = line_V_calls u8 x y len c.
Proof.
  intros Hy Hl. unfold line_V_calls. apply upto_map_ext. intros k Hk.
  rewrite u8_small by lia. reflexivity.
Qed.

Lemma glyph_calls_plain (f : FontDef) (p : Cursor) (chr : Z) (color : Color) :
  0 <= X p -> X p + FontWidth f <= 256 ->
  0 <= Y p -> Y p + FontHeight f <= 256 ->
  glyph_calls (fun z => z) f p chr color = glyph_calls u8 f p chr color.
Proof.
  intros Hx Hw Hy Hh. unfold glyph_calls.
  apply upto_flat_map_ext. intros y Hyin.
  unfold glyph_row_calls. apply upto_map_ext. intros x Hxin.
  rewrite !u8_small by lia. reflexivity.
Qed.

Lemma Draw_Line_H_plain (d : t) (x y len : Z) (c : Color) :
  typed d -> supported d -> 0 <= x -> 0 <= y -> 0 <= len ->
  x + len <= 256 ->
  line_H_drawn (fun z => z) d x y len c.
Proof.
  intros Ht Hs Hx Hy Hl Hfit. unfold line_H_drawn.
  rewrite line_H_calls_plain by assumption.
  apply Draw_Line_H_drawn; assumption.
Qed.

Lemma Draw_Line_V_plain (d : t) (x y len : Z) (c : Color) :
  typed d -> supported d -> 0 <= x -> 0 <= y -> 0 <= len ->
  y + len <= 256 ->
  line_V_drawn (fun z => z) d x y len c.
Proof.
  intros Ht Hs Hx Hy Hl Hfit. unfold line_V_drawn.
  rewrite line_V_calls_plain by assumption.
  apply Draw_Line_V_drawn; assumption.
Qed.

(** ** Drawing, claim by claim *)

(** C1 (amended).  On a display of height at most 64, for every pixel
    [(x, y)] with [x < width] and [y < height], [Draw_Pixel x y WHITE] sets
    bit [y % 8] of framebuffer byte [x + width * (y / 8)] and
    [Draw_Pixel x y BLACK] clears it, the seven other bits of that byte stay
    as they were, and reading the bit back gives 1 for WHITE and 0 for
    BLACK. *)
Theorem Draw_Pixel_sets_or_clears_bit (d : t) (x y : Z) (c : Color) :
  typed d -> supported d ->
  0 <= x < width -> 0 <= y < height d ->
  pixel_written d x y c.
Proof.
  intros [_ Hlen] Hs Hx Hy.
  pose proof (pixel_index_bounds (height d) x y Hx Hy Hs) as Hi.
  rewrite <- Hlen in Hi.
  destruct (array_get_Some _ _ Hi) as [b Hb].
  assert (Hk : 0 <= y mod 8 < 8) by (apply Z.mod_pos_bound; lia).
  unfold pixel_written.
  eexists _, b, _. split; [apply Draw_Pixel_in_buffer; [lia | lia | exact Hb]|].
  split; [exact Hb|].
  cbn [buffer set_buffer].
  split; [apply array_get_insert_eq; exact Hi|].
  assert (Hbit : Z.testbit
                   match c with
                   | WHITE => u8 (Z.lor b (u8 (Z.shiftl 1 (y mod 8))))
                   | BLACK => u8 (Z.land b (u8 (Z.lnot (Z.shiftl 1 (y mod 8)))))
                   end (y mod 8) = lit c).
  { destruct c; cbn [lit].
    - rewrite clear_bit_spec by lia. rewrite Z.eqb_refl. apply andb_false_r.
    - rewrite set_bit_spec by lia. rewrite Z.eqb_refl. apply orb_true_r. }
  split; [exact Hbit|].
  split.
  - intros i Hi8 Hne. destruct c.
    + rewrite clear_bit_spec by lia.
      replace (y mod 8 =? i) with false by (symmetry; lia).
      apply andb_true_r.
    + rewrite set_bit_spec by lia.
      replace (y mod 8 =? i) with false by (symmetry; lia).
      apply orb_false_r.
  - unfold read_pixel. cbn [buffer set_buffer].
    rewrite array_get_insert_eq by exact Hi. rewrite Hbit. reflexivity.
Qed.

(** C4.  For every [(x, y)] with [x >= width] or [y >= height] and every
    colour, [Draw_Pixel x y c] returns normally and hands the object back as
    it was: no byte of the framebuffer has changed. *)
Theorem Draw_Pixel_out_of_range_noop (d : t) (x y : Z) (c : Color) :
  x >= width \/ y >= height d ->
  Draw_Pixel x y c d = Some (tt, d).
Proof.
  intros Hout. unfold Draw_Pixel.
  destruct (Z.geb_spec x width) as [_|Hx]; [reflexivity|].
  destruct (Z.geb_spec y (height d)) as [_|Hy]; [reflexivity|].
  exfalso. destruct Hout; lia.
Qed.

(** C5 (amended).  On a display of height at most 64 whose font table holds
    the rows of the glyph, and with the cursor far enough from the 8-bit
    limit ([cursor.X + FontWidth <= 255], [cursor.Y + FontHeight <= 256]),
    [Write_Char chr color] draws, for every row [y < FontHeight] and every
    column [x < FontWidth], the pixel at [(cursor.X + x, cursor.Y + y)]: in
    normal mode (WHITE) it is WHITE if bit [15 - x] of the row word is set
    and BLACK otherwise, in inverted mode (BLACK) the two colours are
    swapped, background included; pixels outside the screen are dropped and
    no other bit of the framebuffer changes; afterwards [cursor.X] has
    advanced by exactly [FontWidth] and [cursor.Y] is unchanged. *)
Theorem Write_Char_draws_glyph (d : t) (chr : Z) (color : Color) :
  typed d -> supported d ->
  is_u8 (FontWidth (font d)) -> is_u8 (FontHeight (font d)) ->
  glyph_present (font d) chr ->
  cursor_fits d ->
  glyph_drawn (fun z => z) d chr color.
Proof.
  intros Ht Hs Hw Hh Hg (Hx&Hxw&Hy&Hyh).
  destruct (Write_Char_drawn d chr color Ht Hs Hw Hh Hg)
    as (d1&d'&Hrun&Hwc&Hd'&Hon&Hoff&Hrest).
  unfold is_u8 in Hw, Hh.
  exists d1, d'.
  rewrite glyph_calls_plain by lia.
  rewrite u8_small in Hd' by lia.
  split; [exact Hrun|]. split; [exact Hwc|]. split; [exact Hd'|].
  split; [|split; [|exact Hrest]].
  - intros x y Hxr Hyr Hpx Hpy.
    specialize (Hon x y Hxr Hyr). rewrite !u8_small in Hon by lia.
    apply Hon; assumption.
  - intros px py Hpx Hpy Hdiff.
    destruct (Hoff px py Hpx Hpy Hdiff) as (x&y&Hxr&Hyr&Hex&Hey&Hlt).
    rewrite u8_small in Hex, Hey by lia.
    exists x, y. repeat split; try lia.
Qed.

(** C8 (amended).  For every [(x, y)], after [Set_Cursor x y] the cursor
    lies in [[0, width] x [0, height]], bounds included: an argument below
    its bound is stored unchanged, and an argument greater than or equal to
    the bound is replaced by the bound. *)
Theorem Set_Cursor_clamps (d : t) (x y : Z) :
  typed d -> is_u8 x -> is_u8 y ->
  exists d',
    Set_Cursor x y d = Some (tt, d') /\
    cursor_up_to_edge d' /\
    cursor_clamped d d' x y.
Proof.
  intros [Hh _] Hx Hy. unfold is_u8 in *.
  destruct (Set_Cursor_clamped d x y) as (d'&Hrun&Hc&Hd').
  exists d'. split; [exact Hrun|]. split; [|exact Hc].
  assert (Hhd : height d' = height d) by (rewrite Hd'; reflexivity).
  destruct Hc as (H1&H2&H3&H4). unfold cursor_up_to_edge, width in *.
  rewrite Hhd.
  destruct (Z_lt_ge_dec x 128), (Z_lt_ge_dec y (height d)); lia.
Qed.

(** C9 (amended).  On a display of height at most 64, and for a line that
    ends within the 8-bit coordinate range ([x + length <= 256], resp.
    [y + length <= 256]), [Draw_Line_H x y length c] makes exactly [length]
    calls of [Draw_Pixel], at [(x + i, y)] for [i = 0 .. length - 1], and
    [Draw_Line_V] likewise at [(x, y + i)]; calls outside the screen are
    dropped one by one, the pixels of the others take the colour, and no
    other bit of the framebuffer changes. *)
Theorem Draw_Line_pixels (d : t) (x y length : Z) (c : Color) :
  typed d -> supported d ->
  is_u8 x -> is_u8 y -> is_u8 length ->
  (x + length <= 256 -> line_H_drawn (fun z => z) d x y length c) /\
  (y + length <= 256 -> line_V_drawn (fun z => z) d x y length c).
Proof.
  intros Ht Hs Hx Hy Hl. unfold is_u8 in *.
  split; intros Hfit;
    [apply Draw_Line_H_plain | apply Draw_Line_V_plain];
    first [assumption | lia].
Qed.

(** C10 (amended).  On a display of height at most 64, an in-range
    [Draw_Pixel x y c] returns normally, leaves every framebuffer byte other
    than byte [x + width * (y / 8)] as it was, and leaves the cursor, the
    active font, the initialized flag, [last_error] and every other member
    as they were. *)
Theorem Draw_Pixel_touches_one_byte (d : t) (x y : Z) (c : Color) :
  typed d -> supported d ->
  0 <= x < width -> 0 <= y < height d ->
  exists d',
    Draw_Pixel x y c d = Some (tt, d') /\
    only_byte_changed d d' (pixel_index x y).
Proof.
  intros [_ Hlen] Hs Hx Hy.
  pose proof (pixel_index_bounds (height d) x y Hx Hy Hs) as Hi.
  rewrite <- Hlen in Hi.
  destruct (array_get_Some _ _ Hi) as [b Hb].
  eexists. split; [apply Draw_Pixel_in_buffer; [lia | lia | exact Hb]|].
  unfold only_byte_changed. cbn.
  split; [apply length_insert|].
  split; [|repeat split].
  intros j Hj. apply array_get_insert_ne; lia.
Qed.

(** ** Instances and counterexamples *)

(** Closed facts about the concrete displays, by evaluation. *)
Ltac evaluated :=
  repeat match goal with
         | |- _ /\ _ => split
         | |- typed _ => split
         end;
  try (vm_compute; first [reflexivity | discriminate | split; [discriminate | reflexivity]]).

Lemma Draw_Pixel_sets_or_clears_bit_witness :
  typed oled64 /\ supported oled64 /\
  0 <= 1 < width /\ 0 <= 3 < height oled64 /\
  pixel_written oled64 1 3 WHITE.
Proof.
  assert (Ht : typed oled64) by evaluated.
  assert (Hs : supported oled64) by evaluated.
  assert (Hx : 0 <= 1 < width) by evaluated.
  assert (Hy : 0 <= 3 < height oled64) by evaluated.
  split; [exact Ht|]. split; [exact Hs|]. split; [exact Hx|].
  split; [exact Hy|].
  apply (Draw_Pixel_sets_or_clears_bit oled64 1 3 WHITE Ht Hs Hx Hy).
Defined.

(** C1 as stated fails on a display taller than the buffer: row 64 of
    [oled72] passes the guard and has no byte in the framebuffer. *)
Lemma Draw_Pixel_beyond_buffer :
  typed oled72 /\ 0 <= 0 < width /\ 0 <= 64 < height oled72 /\
  pixel_index 0 64 = buffer_size /\
  ~ pixel_written oled72 0 64 WHITE.
Proof.
  evaluated.
  intros (d'&b&b'&H&_). vm_compute in H. discriminate H.
Qed.

Lemma Draw_Pixel_out_of_range_noop_witness :
  (128 >= width \/ 5 >= height oled64) /\
  Draw_Pixel 128 5 WHITE oled64 = Some (tt, oled64).
Proof.
  assert (H : 128 >= width \/ 5 >= height oled64) by (left; vm_compute; discriminate).
  split; [exact H|].
  apply (Draw_Pixel_out_of_range_noop oled64 128 5 WHITE H).
Defined.

Lemma font_eight_present : glyph_present font_eight 56.
Proof.
  intros y Hy. change (FontHeight font_eight) with 10 in Hy.
  assert (Hc : y = 0 \/ y = 1 \/ y = 2 \/ y = 3 \/ y = 4 \/ y = 5 \/ y = 6 \/
               y = 7 \/ y = 8 \/ y = 9) by lia.
  destruct Hc as [->|[->|[->|[->|[->|[->|[->|[->|[->| ->]]]]]]]]];
    vm_compute; eexists; reflexivity.
Defined.

Lemma Write_Char_draws_glyph_witness :
  typed oled64 /\ supported oled64 /\
  is_u8 (FontWidth (font oled64)) /\ is_u8 (FontHeight (font oled64)) /\
  glyph_present (font oled64) 56 /\
  cursor_fits oled64 /\
  glyph_drawn (fun z => z) oled64 56 WHITE.
Proof.
  assert (Ht : typed oled64) by evaluated.
  assert (Hs : supported oled64) by evaluated.
  assert (Hw : is_u8 (FontWidth (font oled64))) by evaluated.
  assert (Hh : is_u8 (FontHeight (font oled64))) by evaluated.
  assert (Hg : glyph_present (font oled64) 56) by exact font_eight_present.
  assert (Hc : cursor_fits oled64) by (repeat split; vm_compute; discriminate).
  split; [exact Ht|]. split; [exact Hs|]. split; [exact Hw|].
  split; [exact Hh|]. split; [exact Hg|]. split; [exact Hc|].
  apply (Write_Char_draws_glyph oled64 56 WHITE Ht Hs Hw Hh Hg Hc).
Defined.

(** C5 as stated fails once the cursor is near 255: with the cursor at
    column 253 the glyph's columns 3 to 6 land on columns 0 to 3 of the
    screen, and the cursor ends at column 4, not 260.  It also fails on a
    display taller than the buffer, where a glyph drawn from row 60 on
    reaches rows that have no byte in the framebuffer. *)
Lemma Write_Char_wraps_around :
  typed oled64_at_edge /\ supported oled64_at_edge /\
  glyph_present (font oled64_at_edge) 56 /\
  Coordinates oled64_at_edge = mkCursor 253 0 /\
  read_pixel oled64_at_edge 0 0 = Some false /\
  (exists d',
      Write_Char 56 WHITE oled64_at_edge = Some (tt, d') /\
      read_pixel d' 0 0 = Some true /\
      Coordinates d' = mkCursor 4 0) /\
  ~ glyph_drawn (fun z => z) oled64_at_edge 56 WHITE /\
  cursor_fits (after (Set_Cursor 0 60) oled72) /\
  ~ glyph_drawn (fun z => z) (after (Set_Cursor 0 60) oled72) 56 WHITE.
Proof.
  split; [evaluated|]. split; [evaluated|].
  split; [exact font_eight_present|].
  split; [vm_compute; reflexivity|]. split; [vm_compute; reflexivity|].
  split.
  - eexists. split; [vm_compute; reflexivity|].
    split; vm_compute; reflexivity.
  - split; [|split].
    + intros (d1&d'&_&Hrun&Hd'&_).
      assert (E : option_map (fun r => X (Coordinates r.2))
                    (Write_Char 56 WHITE oled64_at_edge)
                  = Some (X (Coordinates d')))
        by (rewrite Hrun; reflexivity).
      rewrite Hd' in E. vm_compute in E. discriminate E.
    + repeat split; vm_compute; discriminate.
    + intros (d1&d'&_&Hrun&_). vm_compute in Hrun. discriminate Hrun.
Qed.

Lemma Set_Cursor_clamps_witness :
  typed oled64 /\ is_u8 200 /\ is_u8 10 /\
  exists d',
    Set_Cursor 200 10 oled64 = Some (tt, d') /\
    cursor_up_to_edge d' /\
    cursor_clamped oled64 d' 200 10.
Proof.
  assert (Ht : typed oled64) by evaluated.
  assert (Hx : is_u8 200) by evaluated.
  assert (Hy : is_u8 10) by evaluated.
  split; [exact Ht|]. split; [exact Hx|]. split; [exact Hy|].
  apply (Set_Cursor_clamps oled64 200 10 Ht Hx Hy).
Defined.

(** C8 as stated fails for an argument at or past the bound: the cursor is
    set to [width] itself, which is not inside [[0, width)]. *)
Lemma Set_Cursor_reaches_width :
  typed oled64 /\ is_u8 200 /\ is_u8 10 /\
  X (Coordinates (after (Set_Cursor 200 10) oled64)) = width /\
  ~ (exists d',
        Set_Cursor 200 10 oled64 = Some (tt, d') /\
        cursor_inside d' /\
        cursor_clamped oled64 d' 200 10).
Proof.
  evaluated.
  intros (d'&H&(Hx&_)&_). vm_compute in H. injection H as <-.
  cbn in Hx. unfold width in Hx. lia.
Qed.

Lemma Draw_Line_pixels_witness :
  typed oled64 /\ supported oled64 /\
  is_u8 2 /\ is_u8 3 /\ is_u8 10 /\ 2 + 10 <= 256 /\ 3 + 10 <= 256 /\
  line_H_drawn (fun z => z) oled64 2 3 10 WHITE /\
  line_V_drawn (fun z => z) oled64 2 3 10 WHITE.
Proof.
  assert (Ht : typed oled64) by evaluated.
  assert (Hs : supported oled64) by evaluated.
  assert (Hx : is_u8 2) by evaluated.
  assert (Hy : is_u8 3) by evaluated.
  assert (Hl : is_u8 10) by evaluated.
  assert (Hh : 2 + 10 <= 256) by discriminate.
  assert (Hv : 3 + 10 <= 256) by discriminate.
  destruct (Draw_Line_pixels oled64 2 3 10 WHITE Ht Hs Hx Hy Hl) as [HH HV].
  split; [exact Ht|]. split; [exact Hs|]. split; [exact Hx|].
  split; [exact Hy|]. split; [exact Hl|]. split; [exact Hh|].
  split; [exact Hv|]. split; [exact (HH Hh) | exact (HV Hv)].
Defined.

(** C9 as stated fails for a line that runs past column 255: of
    [Draw_Line_H 250 0 10] the calls for [i = 6 .. 9] are made at columns
    0 to 3 and are not dropped.  It also fails on a display taller than the
    buffer, where a vertical line from row 60 on reaches rows that have no
    byte in the framebuffer. *)
Lemma Draw_Line_H_wraps_around :
  typed oled64 /\ supported oled64 /\
  is_u8 250 /\ is_u8 0 /\ is_u8 10 /\
  read_pixel oled64 0 0 = Some false /\
  read_pixel (after (Draw_Line_H 250 0 10 WHITE) oled64) 0 0 = Some true /\
  ~ line_H_drawn (fun z => z) oled64 250 0 10 WHITE /\
  60 + 10 <= 256 /\
  ~ line_V_drawn (fun z => z) oled72 0 60 10 WHITE.
Proof.
  evaluated.
  - intros (_&Hcalls&_).
    assert (E : option_map (fun r => read_pixel r.2 0 0)
                  (Draw_Line_H 250 0 10 WHITE oled64)
                = option_map (fun r => read_pixel r.2 0 0)
                    (draw_all (line_H_calls (fun z => z) 250 0 10 WHITE) oled64))
      by (rewrite Hcalls; reflexivity).
    vm_compute in E. discriminate E.
  - intros (_&_&d'&Hrun&_). vm_compute in Hrun. discriminate Hrun.
Qed.

Lemma Draw_Pixel_touches_one_byte_witness :
  typed oled64 /\ supported oled64 /\
  0 <= 127 < width /\ 0 <= 63 < height oled64 /\
  exists d',
    Draw_Pixel 127 63 WHITE oled64 = Some (tt, d') /\
    only_byte_changed oled64 d' (pixel_index 127 63).
Proof.
  assert (Ht : typed oled64) by evaluated.
  assert (Hs : supported oled64) by evaluated.
  assert (Hx : 0 <= 127 < width) by evaluated.
  assert (Hy : 0 <= 63 < height oled64) by evaluated.
  split; [exact Ht|]. split; [exact Hs|]. split; [exact Hx|].
  split; [exact Hy|].
  apply (Draw_Pixel_touches_one_byte oled64 127 63 WHITE Ht Hs Hx Hy).
Defined.

(** C10 as stated fails on a display taller than the buffer: the write for
    row 71 of [oled72] passes the guard and sets bit 7 of the byte at index
    1029, five bytes past the end of the framebuffer, in the members that
    follow it in the object. *)
Lemma Draw_Pixel_row_71_escapes :
  typed oled72 /\ 0 <= 5 < width /\ 0 <= 71 < height oled72 /\
  pixel_index 5 71 = buffer_size + 5 /\ 71 mod 8 = 7 /\
  ~ (exists d',
        Draw_Pixel 5 71 WHITE oled72 = Some (tt, d') /\
        only_byte_changed oled72 d' (pixel_index 5 71)).
Proof.
  evaluated.
  intros (d'&H&_). vm_compute in H. discriminate H.
Qed.

Lemma Update_Screen_sends_frame_witness :
  typed oled64 /\ supported oled64 /\
  exists d', Update_Screen quiet_bus oled64 = Some (tt, d') /\ refreshed oled64 d'.
Proof.
  assert (Ht : typed oled64) by evaluated.
  assert (Hs : supported oled64) by evaluated.
  split; [exact Ht|]. split; [exact Hs|].
  apply (Update_Screen_sends_frame quiet_bus oled64 Ht Hs).
Defined.

(** C3 as stated fails for a configured height above 64: the data transfer
    of [oled72] asks for 1152 bytes of a framebuffer that has 1024. *)
Lemma Update_Screen_tall_display :
  typed oled72 /\
  Size (flush oled72 (buffer oled72)) = 1152 /\
  Z.of_nat (length (buffer oled72)) = 1024 /\
  ~ (exists d',
        Update_Screen quiet_bus oled72 = Some (tt, d') /\ refreshed oled72 d').
Proof.
  evaluated.
  intros (d'&_&_&_&block&Hp&_). vm_compute in Hp. discriminate Hp.
Qed.

Lemma last_error_latches_witness :
  Call_Draw_Line_V 4 60 8 BLACK <> Call_Clean_Errors /\
  supported (after (Update_Screen busy_bus) oled64) /\
  call quiet_bus (Call_Draw_Line_V 4 60 8 BLACK)
       (after (Update_Screen busy_bus) oled64)
  = Some (tt, after (Update_Screen busy_bus ;; Draw_Line_V 4 60 8 BLACK)
                    oled64) /\
  last_error (after (Update_Screen busy_bus) oled64) <> 0 /\
  last_error (after (Update_Screen busy_bus ;; Draw_Line_V 4 60 8 BLACK)
                    oled64) <> 0.
Proof.
  assert (Hop : Call_Draw_Line_V 4 60 8 BLACK <> Call_Clean_Errors)
    by discriminate.
  assert (Hs : supported (after (Update_Screen busy_bus) oled64))
    by (vm_compute; discriminate).
  assert (Hrun : call quiet_bus (Call_Draw_Line_V 4 60 8 BLACK)
                      (after (Update_Screen busy_bus) oled64)
                 = Some (tt, after (Update_Screen busy_bus ;;
                                    Draw_Line_V 4 60 8 BLACK) oled64))
    by (vm_compute; reflexivity).
  assert (He : last_error (after (Update_Screen busy_bus) oled64) <> 0)
    by (vm_compute; discriminate).
  split; [exact Hop|]. split; [exact Hs|]. split; [exact Hrun|].
  split; [exact He|].
  destruct (last_error_latches quiet_bus
              (after (Update_Screen busy_bus) oled64) 0 []
              (Call_Draw_Line_V 4 60 8 BLACK)) as (_&_&_&_&H).
  exact (H Hop Hs tt _ Hrun He).
Defined.

(** C6 as stated fails on a display taller than the buffer: [oled72] holds
    the 0xff its constructor latched, [Draw_Line_V 4 64 8 BLACK] is no
    [Clean_Errors], its eight pixels all pass the guard of [Draw_Pixel], and
    each of them clears a bit of the byte at index 1028, four bytes past
    the end of the framebuffer, in the members that follow it in the
    object, [last_error] among them. *)
Lemma Draw_Line_V_past_buffer :
  typed oled72 /\ last_error oled72 = 0xff /\
  Call_Draw_Line_V 4 64 8 BLACK <> Call_Clean_Errors /\
  (forall i, 0 <= i < 8 ->
             4 < width /\ u8 (64 + i) < height oled72 /\
             pixel_index 4 (u8 (64 + i)) = buffer_size + 4) /\
  ~ (exists d',
        call quiet_bus (Call_Draw_Line_V 4 64 8 BLACK) oled72
        = Some (tt, d') /\
        last_error d' <> 0).
Proof.
  split; [evaluated|]. split; [reflexivity|]. split; [discriminate|].
  split.
  - intros i Hi.
    assert (Hc : i = 0 \/ i = 1 \/ i = 2 \/ i = 3 \/ i = 4 \/ i = 5 \/
                 i = 6 \/ i = 7) by lia.
    destruct Hc as [->|[->|[->|[->|[->|[->|[->| ->]]]]]]];
      repeat split; reflexivity.
  - intros (d'&H&_). vm_compute in H. discriminate H.
Qed.

Lemma Initialize_reports_latched_error_witness :
  72 > 64 /\ last_error oled72 = 0xff /\
  exists d', Initialize quiet_bus oled72 = Some (false, d') /\
             last_error d' = 0xff.
Proof.
  assert (Hh : 72 > 64) by reflexivity.
  destruct (Initialize_reports_latched_error quiet_bus oled72)
    as [(b&d'&Hrun&_&_&Hlatched&Hquiet) Hnew].
  destruct (Hnew [] 72 ALT_NOREMAP 0x78 font_eight blank (mkCursor 0 0) Hh)
    as (He&Hne&_).
  split; [exact Hh|]. split; [exact He|].
  destruct (Hlatched Hne) as [-> _].
  exists d'. split; [exact Hrun|].
  rewrite (Hquiet (fun _ _ _ _ _ _ _ => eq_refl)). exact He.
Defined.

(** * The rest of the driver *)

(** ** Bytes and the buffer *)

Lemma testbit_u8_high (z i : Z) : 8 <= i -> Z.testbit (u8 z) i = false.
Proof.
  intros Hi. unfold u8. change 256 with (2 ^ 8).
  apply Z.mod_pow2_bits_high. lia.
Qed.

Lemma write_bit_testbit (c : Color) (b k i : Z) :
  0 <= k < 8 -> 0 <= i ->
  Z.testbit (write_bit c b k) i
  = if i <? 8 then (if k =? i then lit c else Z.testbit b i) else false.
Proof.
  intros Hk Hi. destruct (Z.ltb_spec i 8) as [Hlt|Hge].
  - apply written_bit; lia.
  - destruct c; apply testbit_u8_high; exact Hge.
Qed.

(** Writing a bit twice: the second colour stands. *)
Lemma write_bit_overwrite (c1 c2 : Color) (b k : Z) :
  0 <= k < 8 -> write_bit c2 (write_bit c1 b k) k = write_bit c2 b k.
Proof.
  intros Hk. apply Z.bits_inj'. intros i Hi.
  rewrite !write_bit_testbit by lia.
  destruct (i <? 8), (k =? i); reflexivity.
Qed.

(** Writing two different bits: the order does not matter. *)
Lemma write_bit_commute (c1 c2 : Color) (b k1 k2 : Z) :
  0 <= k1 < 8 -> 0 <= k2 < 8 -> k1 <> k2 ->
  write_bit c2 (write_bit c1 b k1) k2 = write_bit c1 (write_bit c2 b k2) k1.
Proof.
  intros H1 H2 Hne. apply Z.bits_inj'. intros i Hi.
  rewrite !write_bit_testbit by lia.
  destruct (i <? 8); [|reflexivity].
  destruct (Z.eqb_spec k1 i), (Z.eqb_spec k2 i); try reflexivity.
  congruence.
Qed.

Lemma set_buffer_same (d : t) : set_buffer (buffer d) d = d.
Proof. destruct d. reflexivity. Qed.

(** [Draw_Pixel] is [poke] on the buffer and nothing else. *)
Lemma Draw_Pixel_poke (x y : Z) (c : Color) (d : t) :
  Draw_Pixel x y c d
  = match poke x y c (height d) (buffer d) with
    | Some buf => Some (tt, set_buffer buf d)
    | None => None
    end.
Proof.
  unfold Draw_Pixel, poke.
  destruct ((x >=? width) || (y >=? height d)).
  - rewrite set_buffer_same. reflexivity.
  - destruct (array_get (buffer d) (pixel_index x y)); reflexivity.
Qed.

Lemma array_get_bound (a : list Z) (i b : Z) :
  array_get a i = Some b -> 0 <= i < Z.of_nat (length a).
Proof.
  unfold array_get. destruct (Z.ltb_spec i 0) as [Hneg|Hpos]; [discriminate|].
  intros Hget. apply lookup_lt_Some in Hget. lia.
Qed.

Lemma array_get_insert_None (a : list Z) (n : nat) (v i : Z) :
  array_get a i = None -> array_get (<[n := v]> a) i = None.
Proof.
  unfold array_get. destruct (i <? 0); [reflexivity|].
  intros H. apply lookup_ge_None in H. apply lookup_ge_None.
  rewrite length_insert. exact H.
Qed.

Lemma poke_overwrite (x y : Z) (c1 c2 : Color) (h : Z) (buf : list Z) :
  match poke x y c1 h buf with
  | Some buf1 => poke x y c2 h buf1
  | None => None
  end = poke x y c2 h buf.
Proof.
  unfold poke. destruct ((x >=? width) || (y >=? h)) eqn:G.
  - reflexivity.
  - destruct (array_get buf (pixel_index x y)) as [b|] eqn:E; [|reflexivity].
    pose proof (array_get_bound _ _ _ E) as Hi.
    rewrite array_get_insert_eq by exact Hi.
    rewrite list_insert_insert_eq.
    rewrite write_bit_overwrite by (apply Z.mod_pos_bound; lia).
    reflexivity.
Qed.

Lemma poke_commute (x1 y1 x2 y2 : Z) (c1 c2 : Color) (h : Z) (buf : list Z) :
  0 <= x1 -> 0 <= y1 -> 0 <= x2 -> 0 <= y2 ->
  (x1, y1) <> (x2, y2) ->
  match poke x1 y1 c1 h buf with
  | Some buf1 => poke x2 y2 c2 h buf1
  | None => None
  end
  = match poke x2 y2 c2 h buf with
    | Some buf2 => poke x1 y1 c1 h buf2
    | None => None
    end.
Proof.
  intros Hx1 Hy1 Hx2 Hy2 Hne. unfold poke.
  destruct ((x1 >=? width) || (y1 >=? h)) eqn:G1;
    destruct ((x2 >=? width) || (y2 >=? h)) eqn:G2;
    try reflexivity.
  - destruct (array_get buf (pixel_index x2 y2)); reflexivity.
  - destruct (array_get buf (pixel_index x1 y1)); reflexivity.
  - apply orb_false_iff in G1 as [Gx1 Gy1], G2 as [Gx2 Gy2].
    assert (Hk1 : 0 <= y1 mod 8 < 8) by (apply Z.mod_pos_bound; lia).
    assert (Hk2 : 0 <= y2 mod 8 < 8) by (apply Z.mod_pos_bound; lia).
    destruct (array_get buf (pixel_index x1 y1)) as [b1|] eqn:E1;
      destruct (array_get buf (pixel_index x2 y2)) as [b2|] eqn:E2.
    + pose proof (array_get_bound _ _ _ E1) as Hi1.
      pose proof (array_get_bound _ _ _ E2) as Hi2.
      destruct (Z.eq_dec (pixel_index x1 y1) (pixel_index x2 y2)) as [Hi|Hi].
      * assert (Hk : y1 mod 8 <> y2 mod 8).
        { intros Hk. destruct (pixel_slot_inj x1 y1 x2 y2); try lia. congruence. }
        rewrite Hi in *. assert (b1 = b2) by congruence. subst b2.
        rewrite !array_get_insert_eq by lia.
        rewrite !list_insert_insert_eq.
        rewrite (write_bit_commute c1 c2) by assumption. reflexivity.
      * rewrite !array_get_insert_ne by lia. rewrite E1, E2.
        rewrite (list_insert_insert_ne _ (Z.to_nat (pixel_index x2 y2)) (Z.to_nat (pixel_index x1 y1))) by lia. reflexivity.
    + rewrite array_get_insert_None by exact E2. reflexivity.
    + rewrite array_get_insert_None by exact E1. reflexivity.
    + reflexivity.
Qed.

(** ** [Draw_Pixel] after [Draw_Pixel] *)

Lemma Draw_Pixel_twice (d : t) (x y : Z) (c1 c2 : Color) :
  (Draw_Pixel x y c1 ;; Draw_Pixel x y c2) d = Draw_Pixel x y c2 d.
Proof.
  unfold bind. rewrite !Draw_Pixel_poke.
  rewrite <- (poke_overwrite x y c1 c2 (height d) (buffer d)).
  destruct (poke x y c1 (height d) (buffer d)) as [b1|]; [|reflexivity].
  rewrite Draw_Pixel_poke. cbn [height buffer set_buffer].
  destruct (poke x y c2 (height d) b1); reflexivity.
Qed.

(** X1.  Two [Draw_Pixel] calls at the same coordinates leave the object
    exactly as the second call alone would: the last colour stands, and a
    repeated call changes nothing further.  This holds for every object and
    all coordinates, faults included. *)
Theorem Draw_Pixel_last_wins (d : t) (x y : Z) (c1 c2 : Color) :
  (Draw_Pixel x y c1 ;; Draw_Pixel x y c2) d = Draw_Pixel x y c2 d /\
  (Draw_Pixel x y c2 ;; Draw_Pixel x y c2) d = Draw_Pixel x y c2 d.
Proof.
  assert (H : forall c,
             (Draw_Pixel x y c ;; Draw_Pixel x y c2) d = Draw_Pixel x y c2 d).
  { intros c. unfold bind. rewrite !Draw_Pixel_poke.
    rewrite <- (poke_overwrite x y c c2 (height d) (buffer d)).
    destruct (poke x y c (height d) (buffer d)) as [b1|]; [|reflexivity].
    rewrite Draw_Pixel_poke. cbn [height buffer set_buffer].
    destruct (poke x y c2 (height d) b1); reflexivity. }
  split; apply H.
Qed.

(** X2.  [Draw_Pixel] calls at two different pixels commute: either order
    leaves the same object (or faults alike), also when the two pixels share
    a byte of the framebuffer. *)
Theorem Draw_Pixel_commutes (d : t) (x1 y1 x2 y2 : Z) (c1 c2 : Color) :
  0 <= x1 -> 0 <= y1 -> 0 <= x2 -> 0 <= y2 ->
  (x1, y1) <> (x2, y2) ->
  (Draw_Pixel x1 y1 c1 ;; Draw_Pixel x2 y2 c2) d
  = (Draw_Pixel x2 y2 c2 ;; Draw_Pixel x1 y1 c1) d.
Proof.
  intros Hx1 Hy1 Hx2 Hy2 Hne. unfold bind. rewrite !Draw_Pixel_poke.
  pose proof (poke_commute x1 y1 x2 y2 c1 c2 (height d) (buffer d)
                Hx1 Hy1 Hx2 Hy2 Hne) as Hc.
  destruct (poke x1 y1 c1 (height d) (buffer d)) as [b1|];
    destruct (poke x2 y2 c2 (height d) (buffer d)) as [b2|];
    rewrite ?Draw_Pixel_poke; cbn [height buffer set_buffer];
    try rewrite Hc; try rewrite <- Hc; reflexivity.
Qed.

Lemma Draw_Pixel_commutes_witness :
  0 <= 3 /\ 0 <= 1 /\ (3, 1) <> (3, 6) /\
  (Draw_Pixel 3 1 WHITE ;; Draw_Pixel 3 6 BLACK) oled64
  = (Draw_Pixel 3 6 BLACK ;; Draw_Pixel 3 1 WHITE) oled64.
Proof.
  assert (H0 : 0 <= 3) by discriminate.
  assert (H1 : 0 <= 1) by discriminate.
  assert (H6 : 0 <= 6) by discriminate.
  assert (Hne : (3, 1) <> (3, 6)) by discriminate.
  split; [exact H0|]. split; [exact H1|]. split; [exact Hne|].
  apply (Draw_Pixel_commutes oled64 3 1 3 6 WHITE BLACK H0 H1 H0 H6 Hne).
Defined.

(** ** [Draw_Square] *)

Lemma Draw_Line_H_one (d : t) (x y : Z) (c : Color) :
  is_u8 x -> Draw_Line_H x y 1 c d = Draw_Pixel x y c d.
Proof.
  intros Hx. unfold Draw_Line_H, for_u8. change (Z.to_nat 1) with 1%nat.
  cbn [for_from]. unfold bind, ret. rewrite Z.add_0_r, u8_small by exact Hx.
  destruct (Draw_Pixel x y c d) as [[[] d1]|]; reflexivity.
Qed.

Lemma Draw_Line_V_one (d : t) (x y : Z) (c : Color) :
  is_u8 y -> Draw_Line_V x y 1 c d = Draw_Pixel x y c d.
Proof.
  intros Hy. unfold Draw_Line_V, for_u8. change (Z.to_nat 1) with 1%nat.
  cbn [for_from]. unfold bind, ret. rewrite Z.add_0_r, u8_small by exact Hy.
  destruct (Draw_Pixel x y c d) as [[[] d1]|]; reflexivity.
Qed.

(** X3.  The degenerate square [Draw_Square x y x y c] is one pixel: it
    leaves the object exactly as [Draw_Pixel x y c] does. *)
Theorem Draw_Square_single_pixel (d : t) (x y : Z) (c : Color) :
  is_u8 x -> is_u8 y ->
  Draw_Square x y x y c d = Draw_Pixel x y c d.
Proof.
  intros Hx Hy. unfold Draw_Square.
  replace (u8 (x - x + 1)) with 1 by (rewrite Z.sub_diag; reflexivity).
  replace (u8 (y - y + 1)) with 1 by (rewrite Z.sub_diag; reflexivity).
  assert (Hstep : forall (m : M unit) (k : M unit) e,
             (forall e', m e' = Draw_Pixel x y c e') ->
             (forall e', k e' = Draw_Pixel x y c e') ->
             (m ;; k) e = Draw_Pixel x y c e).
  { intros m k e Hm Hk. rewrite <- (Draw_Pixel_twice e x y c c).
    unfold bind. rewrite Hm. destruct (Draw_Pixel x y c e) as [[u e1]|];
      [apply Hk | reflexivity]. }
  apply Hstep; [intros; apply Draw_Line_H_one; exact Hx|]. intros e1.
  apply Hstep; [intros; apply Draw_Line_H_one; exact Hx|]. intros e2.
  apply Hstep; intros; apply Draw_Line_V_one; exact Hy.
Qed.

Lemma Draw_Square_single_pixel_witness :
  is_u8 6 /\ is_u8 0 /\
  Draw_Square 6 0 6 0 WHITE oled64 = Draw_Pixel 6 0 WHITE oled64.
Proof.
  assert (Hx : is_u8 6) by (split; discriminate || reflexivity).
  assert (Hy : is_u8 0) by (split; discriminate || reflexivity).
  split; [exact Hx|]. split; [exact Hy|].
  apply (Draw_Square_single_pixel oled64 6 0 WHITE Hx Hy).
Defined.

Lemma line_H_calls_In_iff (x y len px py : Z) (c c' : Color) :
  0 <= x -> x + len <= 256 ->
  In (px, py, c') (line_H_calls u8 x y len c)
  <-> x <= px < x + len /\ py = y /\ c' = c.
Proof.
  intros Hx Hl. unfold line_H_calls. rewrite in_map_iff. split.
  - intros (i&Heq&Hi). apply upto_In in Hi.
    rewrite u8_small in Heq by lia. injection Heq as <- <- <-.
    split; [lia | split; reflexivity].
  - intros (Hpx&->&->). exists (px - x). split.
    + rewrite u8_small by lia. f_equal. f_equal. lia.
    + apply upto_In. lia.
Qed.

Lemma line_V_calls_In_iff (x y len px py : Z) (c c' : Color) :
  0 <= y -> y + len <= 256 ->
  In (px, py, c') (line_V_calls u8 x y len c)
  <-> px = x /\ y <= py < y + len /\ c' = c.
Proof.
  intros Hy Hl. unfold line_V_calls. rewrite in_map_iff. split.
  - intros (i&Heq&Hi). apply upto_In in Hi.
    rewrite u8_small in Heq by lia. injection Heq as <- <- <-.
    split; [reflexivity | split; [lia | reflexivity]].
  - intros (->&Hpy&->). exists (py - y). split.
    + rewrite u8_small by lia. f_equal. f_equal. lia.
    + apply upto_In. lia.
Qed.

Lemma square_calls_In (x y x2 y2 px py : Z) (c c' : Color) :
  0 <= x <= x2 -> x2 < 255 -> 0 <= y <= y2 -> y2 < 255 ->
  In (px, py, c') (square_calls x y x2 y2 c)
  <-> c' = c /\ on_border x y x2 y2 px py.
Proof.
  intros Hx Hx2 Hy Hy2. unfold square_calls, on_border.
  rewrite (u8_small (x2 - x + 1)), (u8_small (y2 - y + 1)) by lia.
  rewrite !in_app_iff.
  rewrite !line_H_calls_In_iff, !line_V_calls_In_iff by lia.
  intuition (first [lia | congruence]).
Qed.

Lemma Draw_Square_calls (d : t) (x y x2 y2 : Z) (c : Color) :
  Draw_Square x y x2 y2 c d = draw_all (square_calls x y x2 y2 c) d.
Proof.
  unfold Draw_Square, square_calls. rewrite draw_all_app. unfold bind.
  rewrite Draw_Line_H_calls.
  destruct (draw_all _ d) as [[u1 d1]|]; [|reflexivity].
  rewrite draw_all_app. unfold bind. rewrite Draw_Line_H_calls.
  destruct (draw_all _ d1) as [[u2 d2]|]; [|reflexivity].
  rewrite draw_all_app. unfold bind. rewrite Draw_Line_V_calls.
  destruct (draw_all _ d2) as [[u3 d3]|]; [|reflexivity].
  apply Draw_Line_V_calls.
Qed.

(** X4.  On a display of height at most 64 and for corners in order
    ([x <= x2 < 255], [y <= y2 < 255]), [Draw_Square x y x2 y2 c] returns,
    gives colour [c] to every on-screen pixel of the border of the
    rectangle, both corners included, and changes no other bit of the
    framebuffer nor any other member. *)
Theorem Draw_Square_draws_border (d : t) (x y x2 y2 : Z) (c : Color) :
  typed d -> supported d ->
  0 <= x <= x2 -> x2 < 255 -> 0 <= y <= y2 -> y2 < 255 ->
  exists d',
    Draw_Square x y x2 y2 c d = Some (tt, d') /\
    same_but_buffer d d' /\
    (forall px py,
        on_border x y x2 y2 px py ->
        0 <= px < width -> 0 <= py < height d ->
        read_pixel d' px py = Some (lit c)) /\
    (forall px py,
        0 <= px < width -> 0 <= py < 64 ->
        read_pixel d' px py <> read_pixel d px py ->
        on_border x y x2 y2 px py /\ py < height d).
Proof.
  intros Ht Hs Hx Hx2 Hy Hy2.
  destruct (draw_all_drawn (square_calls x y x2 y2 c) d Ht Hs)
    as (d'&Hrun&Hsame&Hon&Hoff).
  - apply Forall_forall. intros [[px py] c'] Hin.
    apply list_elem_of_In, square_calls_In in Hin as (_&Hb); try assumption.
    unfold on_border in Hb. cbn. lia.
  - intros px py c1 c2 H1 H2.
    apply square_calls_In in H1 as (->&_), H2 as (->&_); try assumption.
    reflexivity.
  - exists d'. rewrite Draw_Square_calls. split; [exact Hrun|].
    split; [exact Hsame|]. split.
    + intros px py Hb Hpx Hpy. apply (Hon px py c); try assumption.
      apply square_calls_In; try assumption. split; [reflexivity | exact Hb].
    + intros px py Hpx Hpy Hdiff.
      destruct (Hoff px py Hpx Hpy Hdiff) as (c'&Hin&Hlt).
      apply square_calls_In in Hin as (_&Hb); try assumption.
      split; assumption.
Qed.

(** ** [Draw_Waveform] *)

Lemma array_get_nth (a : list Z) (i : Z) :
  0 <= i < Z.of_nat (length a) ->
  array_get a i = Some (nth (Z.to_nat i) a 0).
Proof.
  intros Hi. unfold array_get. destruct (Z.ltb_spec i 0); [lia|].
  destruct (lookup_lt_is_Some_2 a (Z.to_nat i)) as [b Hb]; [lia|].
  rewrite Hb. f_equal. symmetry. apply nth_lookup_Some. exact Hb.
Qed.

Lemma array_get_past (a : list Z) (i : Z) :
  Z.of_nat (length a) <= i -> array_get a i = None.
Proof.
  intros Hi. unfold array_get. destruct (Z.ltb_spec i 0); [reflexivity|].
  apply lookup_ge_None. lia.
Qed.

Lemma Draw_Waveform_loop (x y : Z) (samples : list Z) (c : Color)
    (n : nat) (i : Z) (d : t) :
  0 <= i -> i + Z.of_nat n <= Z.of_nat (length samples) ->
  for_from n i (fun i =>
    s <- lift (array_get samples i) ;;
    Draw_Pixel (u8 (i + x)) (u8 (y - s)) c) d
  = draw_all (map (fun i => (u8 (i + x), u8 (y - nth (Z.to_nat i) samples 0), c))
                  (upto n i)) d.
Proof.
  revert i d. induction n as [|n IH]; intros i d Hi Hn; [reflexivity|].
  cbn [for_from upto map draw_all]. unfold bind at 1 2. unfold lift.
  rewrite array_get_nth by lia. unfold bind.
  destruct (Draw_Pixel _ _ c d) as [[u d1]|]; [|reflexivity].
  apply IH; lia.
Qed.

(** X5.  On a display of height at most 64, with at least [size] samples
    to read, none above [y], and [x + size <= 256],
    [Draw_Waveform x y samples size c] returns and gives colour [c] to the
    on-screen pixels [(x + i, y - samples[i])], [i < size]; no other bit of
    the framebuffer and no other member changes. *)
Theorem Draw_Waveform_plots_samples (d : t) (x y : Z) (samples : list Z)
    (size : Z) (c : Color) :
  typed d -> supported d ->
  is_u8 x -> is_u8 y ->
  0 <= size <= Z.of_nat (length samples) ->
  x + size <= 256 ->
  (forall i, 0 <= i < size -> 0 <= nth (Z.to_nat i) samples 0 <= y) ->
  exists d',
    Draw_Waveform x y samples size c d = Some (tt, d') /\
    drawn d d' (waveform_calls (fun z => z) x y samples size c).
Proof.
  intros Ht Hs Hx Hy Hsz Hfit Hsm. unfold is_u8 in *.
  assert (Hcalls : waveform_calls (fun z => z) x y samples size c
                   = waveform_calls u8 x y samples size c).
  { unfold waveform_calls. apply upto_map_ext. intros k Hk.
    specialize (Hsm k). rewrite !u8_small by lia. reflexivity. }
  rewrite Hcalls.
  assert (Hrun : Draw_Waveform x y samples size c d
                 = draw_all (waveform_calls u8 x y samples size c) d).
  { unfold Draw_Waveform, for_u8, waveform_calls.
    apply Draw_Waveform_loop; lia. }
  rewrite Hrun. apply draw_all_drawn; [assumption|assumption| |].
  - apply Forall_forall. intros p Hp.
    apply list_elem_of_In, in_map_iff in Hp as (i&<-&_). cbn.
    split; apply u8_range.
  - intros px py c1 c2 H1 H2. unfold waveform_calls in H1, H2.
    apply in_map_iff in H1 as (i1&[= _ _ <-]&_).
    apply in_map_iff in H2 as (i2&[= _ _ <-]&_). reflexivity.
Qed.

Lemma Draw_Waveform_past_end (x y : Z) (samples : list Z) (c : Color)
    (n : nat) (i : Z) (d : t) :
  typed d -> supported d ->
  0 <= i <= Z.of_nat (length samples) ->
  Z.of_nat (length samples) < i + Z.of_nat n ->
  for_from n i (fun i =>
    s <- lift (array_get samples i) ;;
    Draw_Pixel (u8 (i + x)) (u8 (y - s)) c) d = None.
Proof.
  revert i d. induction n as [|n IH]; intros i d Ht Hs Hi Hn; [lia|].
  cbn [for_from]. unfold bind at 1 2. unfold lift.
  destruct (Z.eq_dec i (Z.of_nat (length samples))) as [Heq|Hne].
  - rewrite array_get_past by lia. reflexivity.
  - rewrite array_get_nth by lia.
    destruct (Draw_Pixel_total d (u8 (i + x))
                (u8 (y - nth (Z.to_nat i) samples 0)) c Ht Hs)
      as [d1 H1]; try apply u8_range.
    rewrite H1. pose proof (Draw_Pixel_same _ _ _ _ _ _ H1) as Hsame.
    apply IH; [eapply same_but_buffer_typed; eassumption
              |eapply same_but_buffer_supported; eassumption|lia|lia].
Qed.

(** X6.  [Draw_Waveform] does not check [size] against the samples it is
    given: on a display of height at most 64, a [size] larger than the
    number of samples makes it read past their end, which has no defined
    result. *)
Theorem Draw_Waveform_reads_past_samples (d : t) (x y : Z) (samples : list Z)
    (size : Z) (c : Color) :
  typed d -> supported d ->
  Z.of_nat (length samples) < size ->
  Draw_Waveform x y samples size c d = None.
Proof.
  intros Ht Hs Hsz. unfold Draw_Waveform, for_u8.
  apply Draw_Waveform_past_end; [assumption|assumption|lia|lia].
Qed.

(** ** [Fill] and [Draw_Image] *)

Lemma map_const_repeat {A : Type} (v : Z) (l : list A) :
  map (fun _ => v) l = repeat v (length l).
Proof. induction l as [|a l IH]; cbn; [|rewrite IH]; reflexivity. Qed.

Lemma array_get_repeat (v : Z) (n : nat) (i : Z) :
  0 <= i < Z.of_nat n -> array_get (repeat v n) i = Some v.
Proof.
  intros Hi. rewrite array_get_nth by (rewrite repeat_length; lia).
  f_equal. apply nth_repeat_lt. lia.
Qed.

Lemma Color_value_bit (c : Color) (k : Z) :
  0 <= k < 8 -> Z.testbit (Color_value c) k = lit c.
Proof.
  intros Hk. destruct c; cbn [Color_value lit].
  - apply Z.bits_0.
  - change 0xff with (Z.ones 8). apply Z.ones_spec_low. exact Hk.
Qed.

Lemma Fill_buffer (d : t) (color : Color) :
  Fill color d
  = Some (tt, set_buffer (repeat (Color_value color) (length (buffer d))) d).
Proof.
  unfold Fill, modify. destruct color; rewrite map_const_repeat; reflexivity.
Qed.

(** X7.  [Fill color] returns, makes every byte of the buffer the value of
    [color] (0x00 or 0xFF) whatever the buffer held before, so that every
    pixel the buffer has reads back as [color], and leaves every other
    member alone. *)
Theorem Fill_paints_every_pixel (d : t) (color : Color) :
  exists d',
    Fill color d = Some (tt, d') /\
    same_but_buffer d d' /\
    buffer d' = repeat (Color_value color) (length (buffer d)) /\
    (forall x y,
        0 <= x -> 0 <= y ->
        pixel_index x y < Z.of_nat (length (buffer d)) ->
        read_pixel d' x y = Some (lit color)) /\
    (forall e, same_but_buffer d e -> Fill color e = Some (tt, d')).
Proof.
  eexists. split; [apply Fill_buffer|].
  split; [unfold same_but_buffer; cbn; rewrite repeat_length; repeat split|].
  split; [reflexivity|]. split.
  - intros x y Hx Hy Hi. unfold read_pixel. cbn [buffer set_buffer].
    assert (0 <= pixel_index x y).
    { unfold pixel_index, width. Z.div_mod_to_equations. lia. }
    rewrite array_get_repeat by lia.
    rewrite Color_value_bit by (apply Z.mod_pos_bound; lia). reflexivity.
  - intros e (Hl&Hc&Hf&Hi&He&Hcn&Hh&Hhc&Ha). rewrite Fill_buffer, Hl.
    destruct d, e. cbn in *. subst. reflexivity.
Qed.

Lemma Fill_paints_every_pixel_witness :
  read_pixel (after (Clean ;; Draw_Pixel 5 9 WHITE ;; Fill BLACK) oled64) 5 9
  = Some false.
Proof.
  destruct (Fill_paints_every_pixel
              (after (Clean ;; Draw_Pixel 5 9 WHITE) oled64) BLACK)
    as (d'&Hrun&_&_&Hread&_).
  assert (E : after (Clean ;; Draw_Pixel 5 9 WHITE ;; Fill BLACK) oled64 = d').
  { unfold after at 1. unfold bind at 1 2.
    change (Clean oled64) with (Some (tt, after Clean oled64)).
    cbv beta iota.
    assert (E1 : Draw_Pixel 5 9 WHITE (after Clean oled64)
                 = Some (tt, after (Clean ;; Draw_Pixel 5 9 WHITE) oled64))
      by (vm_compute; reflexivity).
    rewrite E1, Hrun. reflexivity. }
  rewrite E. apply Hread; vm_compute; first [discriminate | reflexivity].
Defined.

(** X8.  [Draw_Image] copies exactly [buffer_size] bytes: given a source
    of at least 1024 bytes it returns with the buffer equal to the first
    1024 of them and every other member unchanged, bytes beyond the first
    1024 being ignored; a source with fewer than 1024 bytes is read past its
    end, which has no defined result. *)
Theorem Draw_Image_reads_buffer_size_bytes (d : t) (image extra : list Z) :
  (typed d -> buffer_size <= Z.of_nat (length image) ->
   exists d',
     Draw_Image image d = Some (tt, d') /\
     buffer d' = take (Z.to_nat buffer_size) image /\
     same_but_buffer d d' /\
     Draw_Image (image ++ extra) d = Some (tt, d')) /\
  (Z.of_nat (length image) < buffer_size -> Draw_Image image d = None).
Proof.
  unfold Draw_Image, fault.
  split.
  - intros [_ Hb] Hlen.
    unfold buffer_size in *. change (64 / 8 * 128) with 1024 in *.
    rewrite length_app, Nat2Z.inj_add.
    destruct (Z.ltb_spec (Z.of_nat (length image) + Z.of_nat (length extra)) 1024)
      as [Hshort|_]; [lia|].
    destruct (Z.ltb_spec (Z.of_nat (length image)) 1024) as [Hshort|_]; [lia|].
    rewrite take_app_le by lia. rewrite drop_ge by lia. rewrite app_nil_r.
    eexists. split; [reflexivity|]. cbn [buffer set_buffer].
    split; [reflexivity|]. split; [|reflexivity].
    unfold same_but_buffer. cbn. rewrite length_take.
    repeat split. lia.
  - intros Hlen.
    replace (Z.of_nat (length image) <? buffer_size) with true
      by (symmetry; lia).
    reflexivity.
Qed.

Lemma Draw_Image_reads_buffer_size_bytes_witness :
  typed oled64 /\
  buffer_size <= Z.of_nat (length (repeat 0x5a 1030)) /\
  exists d',
    Draw_Image (repeat 0x5a 1030) oled64 = Some (tt, d') /\
    buffer d' = take (Z.to_nat buffer_size) (repeat 0x5a 1030).
Proof.
  assert (Ht : typed oled64) by evaluated.
  assert (Hl : buffer_size <= Z.of_nat (length (repeat 0x5a 1030)))
    by (vm_compute; discriminate).
  split; [exact Ht|]. split; [exact Hl|].
  destruct (Draw_Image_reads_buffer_size_bytes oled64 (repeat 0x5a 1030) [])
    as [H _].
  destruct (H Ht Hl) as (d'&Hrun&Hbuf&_).
  exists d'. split; assumption.
Defined.

(** ** [Write_String] and [Write_String_Inverted] *)

Lemma Write_String_with_cursor (color : Color) (str : list Z) (d : t) :
  typed d -> supported d ->
  is_u8 (FontWidth (font d)) -> is_u8 (FontHeight (font d)) ->
  is_u8 (X (Coordinates d)) ->
  Forall (fun c => c <> 0 /\ glyph_present (font d) c) str ->
  exists d',
    Write_String_with color str d = Some (tt, d') /\
    X (Coordinates d')
    = u8 (X (Coordinates d) + Z.of_nat (length str) * FontWidth (font d)) /\
    Y (Coordinates d') = Y (Coordinates d) /\
    font d' = font d /\
    length (buffer d') = length (buffer d) /\
    off_screen_state_kept d d'.
Proof.
  revert d. induction str as [|c str IH]; intros d Ht Hs Hw Hh Hx Hstr.
  - exists d. split; [reflexivity|]. cbn [length Z.of_nat].
    rewrite Z.mul_0_l, Z.add_0_r, u8_small by exact Hx.
    unfold off_screen_state_kept. repeat split.
  - apply Forall_cons in Hstr as [[Hc Hg] Hstr].
    destruct (Write_Char_drawn d c color Ht Hs Hw Hh Hg)
      as (d0&d1&Hrun&Hwc&Hd1&_&_&Hf&Hi&He&Hcn).
    pose proof (draw_all_same _ _ _ _ Hrun) as Hsame.
    pose proof Hsame as (Hl0&Hc0&Hf0&Hi0&He0&Hcn0&Hh0&Hhc0&Ha0).
    assert (Ht0 : typed d0) by (apply (same_but_buffer_typed d); assumption).
    assert (Ht1 : typed d1).
    { rewrite Hd1. destruct Ht0 as [A B]. split; assumption. }
    assert (Hs1 : supported d1).
    { rewrite Hd1. unfold supported. cbn [height set_Coordinates].
      rewrite Hh0. exact Hs. }
    assert (Hx1 : X (Coordinates d1)
                  = u8 (X (Coordinates d) + FontWidth (font d)))
      by (rewrite Hd1; reflexivity).
    assert (Hy1 : Y (Coordinates d1) = Y (Coordinates d))
      by (rewrite Hd1; reflexivity).
    destruct (IH d1) as (d'&Hrest&HX&HY&HF&HL&HK).
    + exact Ht1.
    + exact Hs1.
    + rewrite Hf. exact Hw.
    + rewrite Hf. exact Hh.
    + rewrite Hx1. apply u8_range.
    + rewrite Hf. exact Hstr.
    + exists d'. split.
      * cbn [Write_String_with].
        replace (c =? 0) with false by (symmetry; lia).
        unfold bind. rewrite Hwc. exact Hrest.
      * rewrite HX, HY, HF, HL, Hx1, Hy1, Hf.
        split.
        { unfold u8. rewrite Zplus_mod_idemp_l. f_equal.
          cbn [length]. lia. }
        split; [reflexivity|]. split; [reflexivity|].
        split; [rewrite Hd1; cbn [buffer set_Coordinates]; exact Hl0|].
        destruct HK as (K1&K2&K3&K4&K5&K6).
        unfold off_screen_state_kept.
        rewrite K1, K2, K3, K4, K5, K6, Hcn, He, Hi, Hd1.
        cbn [height hard_conf address set_Coordinates].
        rewrite Hh0, Hhc0, Ha0. repeat split.
Qed.

(** X9.  On a display of height at most 64, [Write_String] and
    [Write_String_Inverted] of [n] characters whose glyphs the font holds
    return with the cursor moved right by [n * FontWidth] modulo 256, on the
    same line, and with the font, the bus, [last_error], the initialized
    flag and the size of the buffer as they were: neither ever starts a new
    line. *)
Theorem Write_String_advances_cursor (d : t) (str : list Z) :
  typed d -> supported d ->
  is_u8 (FontWidth (font d)) -> is_u8 (FontHeight (font d)) ->
  is_u8 (X (Coordinates d)) ->
  Forall (fun c => c <> 0 /\ glyph_present (font d) c) str ->
  forall write,
    write = Write_String \/ write = Write_String_Inverted ->
    exists d',
      write str d = Some (tt, d') /\
      X (Coordinates d')
      = u8 (X (Coordinates d) + Z.of_nat (length str) * FontWidth (font d)) /\
      Y (Coordinates d') = Y (Coordinates d) /\
      font d' = font d /\
      length (buffer d') = length (buffer d) /\
      off_screen_state_kept d d'.
Proof.
  intros Ht Hs Hw Hh Hx Hstr write [-> | ->].
  - apply (Write_String_with_cursor WHITE); assumption.
  - apply (Write_String_with_cursor BLACK); assumption.
Qed.

(** ** What persists under the drawing functions *)

Section Keeps.

Variable P : t -> Prop.

Hypothesis P_buffer :
  forall d v, length v = length (buffer d) -> P d -> P (set_buffer v d).
Hypothesis P_Coordinates : forall d v, P d -> P (set_Coordinates v d).
Hypothesis P_font : forall d v, P d -> P (set_font v d).
Hypothesis P_image : forall image, keeps P (Draw_Image image).

Lemma keeps_ret {A : Type} (a : A) : keeps P (ret a).
Proof. intros d a' d' [= _ <-] H. exact H. Qed.

Lemma keeps_bind {A B : Type} (m : M A) (k : A -> M B) :
  keeps P m -> (forall a, keeps P (k a)) -> keeps P (bind m k).
Proof.
  intros Hm Hk d b d' Hrun H. unfold bind in Hrun.
  destruct (m d) as [[a d1]|] eqn:E; [|discriminate].
  eapply Hk; [exact Hrun|]. eapply Hm; eassumption.
Qed.

Lemma keeps_gets {A : Type} (f : t -> A) : keeps P (gets f).
Proof. intros d a d' [= _ <-] H. exact H. Qed.

Lemma keeps_lift {A : Type} (o : option A) : keeps P (lift o).
Proof.
  intros d a d' Hrun H. destruct o; [|discriminate].
  injection Hrun as _ <-. exact H.
Qed.

Lemma keeps_for_u8 (bound : Z) (body : Z -> M unit) :
  (forall k, keeps P (body k)) -> keeps P (for_u8 bound body).
Proof.
  intros Hb. unfold for_u8. generalize 0 as i.
  induction (Z.to_nat bound) as [|n IH]; intros i; cbn [for_from].
  - apply keeps_ret.
  - apply keeps_bind; [apply Hb | intros _; apply IH].
Qed.

Lemma keeps_Draw_Pixel (x y : Z) (c : Color) : keeps P (Draw_Pixel x y c).
Proof.
  intros d [] d' Hrun H. rewrite Draw_Pixel_poke in Hrun. unfold poke in Hrun.
  destruct ((x >=? width) || (y >=? height d)).
  - injection Hrun as <-. rewrite set_buffer_same. exact H.
  - destruct (array_get (buffer d) (pixel_index x y)); [|discriminate].
    injection Hrun as <-. apply P_buffer; [apply length_insert | exact H].
Qed.

Lemma keeps_Fill (color : Color) : keeps P (Fill color).
Proof.
  intros d [] d' Hrun H. rewrite Fill_buffer in Hrun. injection Hrun as <-.
  apply P_buffer; [apply repeat_length | exact H].
Qed.

Lemma keeps_Set_Cursor (x y : Z) : keeps P (Set_Cursor x y).
Proof. intros d [] d' [= <-] H. apply P_Coordinates. exact H. Qed.

Lemma keeps_Write_Char (chr : Z) (color : Color) :
  keeps P (Write_Char chr color).
Proof.
  unfold Write_Char.
  apply keeps_bind; [|intros _; intros d [] d' [= <-] H; apply P_Coordinates; exact H].
  apply keeps_bind; [apply keeps_gets|]. intros fh.
  apply keeps_for_u8. intros y.
  apply keeps_bind; [apply keeps_gets|]. intros f.
  apply keeps_bind; [apply keeps_lift|]. intros row.
  apply keeps_for_u8. intros x.
  apply keeps_bind; [apply keeps_gets|]. intros p.
  destruct color, (glyph_bit (u16 row) x); apply keeps_Draw_Pixel.
Qed.

Lemma keeps_Write_String_with (color : Color) (str : list Z) :
  keeps P (Write_String_with color str).
Proof.
  induction str as [|c str IH]; cbn [Write_String_with]; [apply keeps_ret|].
  destruct (c =? 0); [apply keeps_ret|].
  apply keeps_bind; [apply keeps_Write_Char | intros _; exact IH].
Qed.

Lemma keeps_Draw_Line_H (x y w : Z) (c : Color) : keeps P (Draw_Line_H x y w c).
Proof. apply keeps_for_u8. intros i. apply keeps_Draw_Pixel. Qed.

Lemma keeps_Draw_Line_V (x y h : Z) (c : Color) : keeps P (Draw_Line_V x y h c).
Proof. apply keeps_for_u8. intros i. apply keeps_Draw_Pixel. Qed.

Lemma keeps_local (hal : list Transfer -> Z -> Z -> Z -> list Z -> Z -> Z -> Z)
    (op : Operation) :
  is_local op = true -> keeps P (call hal op).
Proof.
  intros Hop.
  destruct op; cbn [is_local] in Hop; try discriminate Hop; clear Hop;
    cbn [call].
  - apply keeps_Fill.
  - apply keeps_Fill.
  - apply keeps_Set_Cursor.
  - apply keeps_Write_String_with.
  - apply keeps_Write_String_with.
  - apply keeps_Draw_Pixel.
  - apply P_image.
  - apply keeps_Draw_Line_H.
  - apply keeps_Draw_Line_V.
  - unfold Draw_Square.
    repeat (apply keeps_bind; [|intros _]);
      first [apply keeps_Draw_Line_H | apply keeps_Draw_Line_V].
  - apply keeps_for_u8. intros i.
    apply keeps_bind; [apply keeps_lift | intros s; apply keeps_Draw_Pixel].
  - intros d [] d' [= <-] H. apply P_font. exact H.
  - apply keeps_bind; [apply keeps_gets | intros; apply keeps_ret].
  - apply keeps_bind; [apply keeps_gets | intros; apply keeps_ret].
  - apply keeps_Write_Char.
Qed.

End Keeps.

(** X10.  On a display of height at most 64, the drawing and text
    functions, the cursor and font setters and the two getters are purely
    local: whenever one of them returns, the transfers made on the bus,
    [last_error], the initialized flag and the configuration ([height],
    [hard_conf], [address]) are what they were. *)
Theorem local_functions_leave_bus_alone
    (hal : list Transfer -> Z -> Z -> Z -> list Z -> Z -> Z -> Z)
    (op : Operation) (d d' : t) (u : unit) :
  supported d ->
  is_local op = true ->
  call hal op d = Some (u, d') ->
  off_screen_state_kept d d'.
Proof.
  intros _ Hop Hrun.
  apply (keeps_local (off_screen_state_kept d)) with (hal := hal) (op := op)
                                                       (d := d) (a := u);
    try assumption.
  - intros e v _ H. exact H.
  - intros e v H. exact H.
  - intros e v H. exact H.
  - intros image e [] e' Hi H. unfold Draw_Image, fault in Hi.
    destruct (Z.of_nat (length image) <? buffer_size); [discriminate|].
    injection Hi as <-. exact H.
  - unfold off_screen_state_kept. repeat split.
Qed.

Lemma local_functions_leave_bus_alone_witness :
  supported oled64 /\
  is_local (Call_Draw_Square 1 1 4 5 WHITE) = true /\
  exists d',
    call busy_bus (Call_Draw_Square 1 1 4 5 WHITE) oled64 = Some (tt, d') /\
    off_screen_state_kept oled64 d'.
Proof.
  assert (Hs : supported oled64) by evaluated.
  assert (Hop : is_local (Call_Draw_Square 1 1 4 5 WHITE) = true) by reflexivity.
  split; [exact Hs|]. split; [exact Hop|].
  exists (after (Draw_Square 1 1 4 5 WHITE) oled64).
  assert (Hrun : call busy_bus (Call_Draw_Square 1 1 4 5 WHITE) oled64
                 = Some (tt, after (Draw_Square 1 1 4 5 WHITE) oled64))
    by (vm_compute; reflexivity).
  split; [exact Hrun|].
  apply (local_functions_leave_bus_alone busy_bus _ _ _ tt Hs Hop Hrun).
Defined.

(** ** The bus, continued *)

Section More_protocol.

Variable HAL_I2C_Mem_Write :
  list Transfer -> Z -> Z -> Z -> list Z -> Z -> Z -> Z.

Local Abbreviation HAL := HAL_I2C_Mem_Write.

Lemma call_control (op : Operation) (bytes : list Z) (d : t) :
  control_bytes op = Some bytes ->
  call HAL op d = Some (tt, sent_all HAL bytes d).
Proof.
  destruct op; cbn [control_bytes]; try discriminate; intros [= <-];
    cbn [call]; try reflexivity.
  - destruct inverted; reflexivity.
  - destruct flipped; reflexivity.
  - destruct mirrored; reflexivity.
Qed.

(** X11.  [Display_Off], [Display_On], [Set_Brightness], [Invert_Colors],
    [Flip_Screen] and [Mirror_Screen] always return, send their command
    bytes and nothing else (0xAE; 0xAF; 0x81 and the level; 0xA7 or 0xA6;
    0xC0 or 0xC8; 0xA0 or 0xA1), and leave the framebuffer, the cursor, the
    font, the initialized flag and the configuration untouched. *)
Theorem control_functions_send_commands_only (op : Operation)
    (bytes : list Z) (d : t) :
  control_bytes op = Some bytes ->
  exists d',
    call HAL op d = Some (tt, d') /\
    conn d' = conn d ++ map (command (address d)) bytes /\
    screen_state_kept d d'.
Proof.
  intros Hop. exists (sent_all HAL bytes d).
  split; [apply call_control; exact Hop|].
  destruct (sent_all_members HAL bytes d) as (H1&H2&H3&H4&H5&H6&H7&H8).
  split; [exact H1|]. unfold screen_state_kept. repeat split; assumption.
Qed.

(** Every member function keeps the object well-formed. *)
Lemma typed_after_bus (d d' : t) :
  height d' = height d -> length (buffer d') = length (buffer d) ->
  typed d -> typed d'.
Proof. intros Hh Hl [A B]. split; [rewrite Hh | rewrite Hl]; assumption. Qed.

Lemma typed_after_control (bytes : list Z) (d : t) :
  typed d -> typed (sent_all HAL bytes d).
Proof.
  destruct (sent_all_members HAL bytes d) as (_&H2&_&_&_&H6&_).
  apply typed_after_bus; [exact H2 | rewrite H6; reflexivity].
Qed.

Lemma returned_object {A : Type} (a b : A) (e e' : t) :
  Some (a, e) = Some (b, e') -> e' = e.
Proof. intros [= _ <-]. reflexivity. Qed.

Lemma call_Initialize (d : t) :
  call HAL Call_Initialize d
  = Some (tt, set_isinitialized (last_error (initialized_state HAL d) =? 0)
                                (initialized_state HAL d)).
Proof. unfold call, bind. rewrite Initialize_steps. reflexivity. Qed.

Lemma shape_kept_by_bus (d e : t) (ctl : Z) (bs : list Z) (sz : Z) :
  shape_kept d e -> shape_kept d (transferred HAL ctl bs sz e).
Proof.
  intros (He&E1&E2&E3).
  destruct (transferred_members HAL ctl bs sz e) as (_&_&G1&G2&G3&_&G4&_).
  unfold shape_kept. rewrite G1, G2, G3.
  split; [|repeat split; assumption].
  apply (typed_after_bus e); [exact G1 | rewrite G4; reflexivity | exact He].
Qed.

Lemma shape_kept_by_commands (d e : t) (cs : list Z) :
  shape_kept d e -> shape_kept d (sent_all HAL cs e).
Proof.
  revert e. induction cs as [|c cs IH]; intros e He; [exact He|].
  cbn [sent_all fold_left]. apply IH. apply shape_kept_by_bus. exact He.
Qed.

Lemma shape_kept_set_buffer (d e : t) (v : list Z) :
  length v = length (buffer e) -> shape_kept d e ->
  shape_kept d (set_buffer v e).
Proof.
  intros Hl (He&E1&E2&E3). unfold shape_kept.
  split; [|repeat split; assumption].
  apply (typed_after_bus e); [reflexivity | exact Hl | exact He].
Qed.

Lemma shape_kept_local (op : Operation) (d d' : t) (u : unit) :
  is_local op = true -> typed d ->
  call HAL op d = Some (u, d') -> shape_kept d d'.
Proof.
  intros Hop Ht Hrun.
  apply (keeps_local (shape_kept d)) with (hal := HAL) (op := op) (d := d)
                                           (a := u).
  - apply shape_kept_set_buffer.
  - intros e v ([A B]&E). split; [split; assumption | exact E].
  - intros e v ([A B]&E). split; [split; assumption | exact E].
  - intros image e [] e' Hi He. unfold Draw_Image, fault in Hi.
    destruct (Z.ltb_spec (Z.of_nat (length image)) buffer_size) as [|Hge];
      [discriminate|].
    injection Hi as <-. apply shape_kept_set_buffer; [|exact He].
    destruct He as ([_ Hb]&_). rewrite length_app, length_take, length_drop.
    unfold buffer_size in *. change (64 / 8 * 128) with 1024 in *. lia.
  - exact Hop.
  - exact Hrun.
  - unfold shape_kept. repeat split; apply Ht.
Qed.

Lemma shape_kept_Initialize (d : t) :
  typed d ->
  shape_kept d (set_isinitialized (last_error (initialized_state HAL d) =? 0)
                                  (initialized_state HAL d)).
Proof.
  intros [A B].
  destruct (initialized_state_members HAL d) as (_&Hb&Hh&Hhc&Ha&_).
  unfold shape_kept. cbn [height hard_conf address buffer set_isinitialized].
  split; [|repeat split; assumption].
  split; cbn [height buffer set_isinitialized].
  - rewrite Hh. exact A.
  - rewrite Hb, length_map. exact B.
Qed.

Lemma shape_kept_Clean_Errors (d : t) :
  typed d -> shape_kept d (set_last_error 0 d).
Proof. intros [A B]. split; [split; assumption | repeat split]. Qed.

Lemma call_bus (op : Operation) (d : t) :
  is_local op = false -> control_bytes op = None ->
  call HAL op d
  = match op with
    | Call_Initialize =>
        Some (tt, set_isinitialized
                    (last_error (initialized_state HAL d) =? 0)
                    (initialized_state HAL d))
    | Call_Update_Screen =>
        Some (tt, transferred HAL control_b_data (buffer d)
                    (height d * width / 8)
                    (sent_all HAL (refresh_commands d) d))
    | Call_Clean_Errors => Some (tt, set_last_error 0 d)
    | Call_Write_Command c => Some (tt, sent HAL c d)
    | Call_Write_Data b =>
        Some (tt, transferred HAL control_b_data b (height d * width / 8) d)
    | _ => None
    end.
Proof.
  intros Hl Hc.
  destruct op; try discriminate Hl; try discriminate Hc.
  - apply call_Initialize.
  - apply Update_Screen_steps.
  - reflexivity.
  - reflexivity.
  - reflexivity.
Qed.

(** X12.  No member function, public or private, changes the shape of the
    object: whenever a call returns on an object whose buffer has its 1024
    bytes, the buffer still has 1024 bytes, and [height], [hard_conf] and
    [address] are what the constructor set. *)
Theorem member_functions_keep_shape (op : Operation) (d d' : t) (u : unit) :
  typed d ->
  call HAL op d = Some (u, d') ->
  typed d' /\
  height d' = height d /\ hard_conf d' = hard_conf d /\
  address d' = address d.
Proof.
  intros Ht Hrun. change (shape_kept d d').
  assert (HP : shape_kept d d) by (unfold shape_kept; repeat split; apply Ht).
  destruct (is_local op) eqn:Hop;
    [apply (shape_kept_local op d d' u Hop Ht Hrun)|].
  destruct (control_bytes op) as [bytes|] eqn:Hc.
  - rewrite (call_control op bytes d Hc) in Hrun.
    apply returned_object in Hrun. subst d'.
    apply (shape_kept_by_commands d d bytes HP).
  - rewrite (call_bus op d Hop Hc) in Hrun.
    destruct op; try discriminate Hrun;
      apply returned_object in Hrun; subst d'.
    + apply shape_kept_Initialize, Ht.
    + apply shape_kept_by_bus.
      apply (shape_kept_by_commands d d (refresh_commands d) HP).
    + apply shape_kept_Clean_Errors, Ht.
    + apply shape_kept_by_bus, HP.
    + apply shape_kept_by_bus, HP.
Qed.

(** *** When [Initialize] succeeds *)

Lemma answers_app (hist a b : list Transfer) :
  answers HAL hist (a ++ b) = answers HAL hist a ++ answers HAL (hist ++ a) b.
Proof.
  revert hist. induction a as [|tr a IH]; intros hist; cbn [app answers].
  - rewrite app_nil_r. reflexivity.
  - rewrite IH, <- app_assoc. reflexivity.
Qed.

Lemma latched_app (a b : list Z) (e : Z) :
  latched (a ++ b) e = latched b (latched a e).
Proof. apply fold_left_app. Qed.

Lemma latched_zero (ss : list Z) (e : Z) :
  latched ss e = 0 <-> e = 0 /\ Forall (fun s => s = 0) ss.
Proof.
  revert e. induction ss as [|s ss IH]; intros e; cbn [latched fold_left].
  - split; [intros H; split; [exact H | constructor] | intros [H _]; exact H].
  - fold (latched ss (latch s e)). rewrite IH. unfold latch.
    split.
    + intros [H1 H2]. destruct (Z.eqb_spec s 0) as [Hs|Hs].
      * split; [exact H1 | constructor; assumption].
      * contradiction.
    + intros [He Hall]. apply Forall_cons in Hall as [Hs Hall].
      rewrite Hs. cbn. split; assumption.
Qed.

Lemma transferred_latched (control : Z) (bytes : list Z) (size : Z) (d : t) :
  last_error (transferred HAL control bytes size d)
  = latched (answers HAL (conn d) [mkTransfer (address d) control bytes size])
            (last_error d).
Proof.
  destruct (transferred_members HAL control bytes size d) as (_&G&_).
  rewrite G. reflexivity.
Qed.

Lemma sent_all_latched (cs : list Z) (d : t) :
  last_error (sent_all HAL cs d)
  = latched (answers HAL (conn d) (map (command (address d)) cs))
            (last_error d).
Proof.
  revert d. induction cs as [|c cs IH]; intros d; [reflexivity|].
  cbn [sent_all fold_left map answers]. fold (sent_all HAL cs (sent HAL c d)).
  rewrite IH.
  destruct (transferred_members HAL control_b_command [c] 1 d)
    as (G1&G2&_&_&G3&_).
  fold (sent HAL c d) in G1, G2, G3. rewrite G1, G2, G3.
  reflexivity.
Qed.

(** The transfers [Initialize] makes. *)
Lemma initialized_state_latched (d : t) :
  let trs :=
    map (command (address d)) (init_commands d)
    ++ map (command (address d)) (refresh_commands d)
    ++ [flush d (map (fun _ => Color_value BLACK) (buffer d))] in
  conn (initialized_state HAL d) = conn d ++ trs /\
  last_error (initialized_state HAL d)
  = latched (answers HAL (conn d) trs) (last_error d).
Proof.
  cbv zeta. destruct (initialized_state_members HAL d) as (Hc&_).
  split; [exact Hc|].
  unfold initialized_state.
  set (d1 := sent_all HAL (init_commands d) d).
  set (d2 := set_buffer (map (fun _ => 0) (buffer d1)) d1).
  rewrite transferred_latched, sent_all_latched.
  destruct (sent_all_members HAL (init_commands d) d)
    as (A1&A2&_&A4&_&A6&_). fold d1 in A1, A2, A4, A6.
  destruct (sent_all_members HAL (refresh_commands d2) d2)
    as (B1&B2&_&B4&_&B6&_).
  assert (Hh : height d2 = height d) by exact A2.
  assert (Ha : address d2 = address d) by exact A4.
  assert (Hcn : conn d2 = conn d1) by reflexivity.
  assert (He : last_error d2 = last_error d1) by reflexivity.
  assert (Hb : buffer d2 = map (fun _ => Color_value BLACK) (buffer d))
    by (unfold d2; cbn [buffer set_buffer]; rewrite A6; reflexivity).
  assert (Hr : refresh_commands d2 = refresh_commands d)
    by (unfold refresh_commands; rewrite Hh; reflexivity).
  rewrite B1, B4, Hr, Hh, Ha, Hb, Hcn, He, A1.
  unfold d1. rewrite sent_all_latched.
  rewrite !answers_app, !latched_app. unfold flush.
  rewrite <- !app_assoc. reflexivity.
Qed.

(** X13.  [Initialize] makes exactly 38 transfers, and returns true exactly
    when no error was latched before the call and each of the 38 was
    answered with status 0; [IsInitialized] then returns that same value. *)
Theorem Initialize_succeeds_iff (d : t) :
  exists b d' trs,
    Initialize HAL d = Some (b, d') /\
    conn d' = conn d ++ trs /\
    length trs = 38%nat /\
    (b = true <->
     last_error d = 0 /\ Forall (fun s => s = 0) (answers HAL (conn d) trs)) /\
    IsInitialized d' = Some (b, d').
Proof.
  destruct (initialized_state_latched d) as (Hc&He).
  eexists _, _, _. split; [apply Initialize_steps|].
  cbn [conn set_isinitialized]. split; [exact Hc|].
  split; [rewrite !length_app, !length_map; reflexivity|].
  split; [|reflexivity].
  rewrite <- latched_zero, <- He. apply Z.eqb_eq.
Qed.

(** X14.  [Clean_Errors] followed by [Initialize] on a bus that answers 0
    throughout returns true and sets the initialized flag, whatever the
    object was before, the constructor's [last_error = 0xff] for a height
    above 64 included: the check of the height does not outlive a
    [Clean_Errors]. *)
Theorem Initialize_after_Clean_Errors (d : t) :
  (forall l a m n p s w, HAL l a m n p s w = 0) ->
  exists d',
    (Clean_Errors ;; Initialize HAL) d = Some (true, d') /\
    isinitialized d' = true /\
    last_error d' = 0 /\
    height d' = height d.
Proof.
  intros Hq. unfold bind, Clean_Errors, modify.
  rewrite Initialize_steps.
  pose proof (initialized_state_quiet HAL (set_last_error 0 d) Hq) as He.
  cbn [last_error set_last_error] in He. rewrite He. cbn [Z.eqb].
  eexists. split; [reflexivity|]. cbn [isinitialized last_error height
    set_isinitialized].
  split; [reflexivity|]. split; [exact He|].
  apply (initialized_state_members HAL (set_last_error 0 d)).
Qed.

(** *** What a flush carries *)

Lemma Update_Screen_payload (d : t) :
  typed d -> supported d ->
  exists d',
    Update_Screen HAL d = Some (tt, d') /\
    conn d' = conn d ++ map (command (address d)) (refresh_commands d)
                     ++ [flush d (buffer d)] /\
    payload (flush d (buffer d))
    = Some (take (Z.to_nat (width * height d / 8)) (buffer d)) /\
    Coordinates d' = Coordinates d /\
    buffer d' = buffer d.
Proof.
  intros Ht Hs. eexists. split; [apply Update_Screen_steps|].
  destruct (sent_all_members HAL (refresh_commands d) d)
    as (A1&_&_&A4&_&A6&_&A8).
  destruct (transferred_members HAL control_b_data (buffer d)
              (height d * width / 8) (sent_all HAL (refresh_commands d) d))
    as (C1&_&_&_&_&_&C6&_&C8).
  pose proof (refresh_size HAL d Ht Hs) as Hsz.
  rewrite C1, C6, C8, A1, A4, A6, A8, <- app_assoc.
  split; [reflexivity|]. split; [|split; reflexivity].
  unfold payload, flush. cbn [Size pData].
  destruct (Z.leb_spec 0 (height d * width / 8)); [|lia].
  destruct (Z.leb_spec (height d * width / 8) (Z.of_nat (length (buffer d))));
    [|lia].
  cbn [andb]. rewrite (Z.mul_comm width). reflexivity.
Qed.

Lemma take_repeat_le (v : Z) (n m : nat) :
  (n <= m)%nat -> take n (repeat v m) = repeat v n.
Proof.
  revert m. induction n as [|n IH]; intros m Hm; [reflexivity|].
  destruct m as [|m]; [lia|]. cbn. f_equal. apply IH. lia.
Qed.

(** X15.  On a display of height at most 64, [Fill color] followed by
    [Update_Screen] sends the six window commands and then one data block of
    exactly [width * height / 8] bytes, every one of them the value of
    [color]. *)
Theorem Fill_then_Update_Screen (d : t) (color : Color) :
  typed d -> supported d ->
  exists d',
    (Fill color ;; Update_Screen HAL) d = Some (tt, d') /\
    conn d'
    = conn d ++ map (command (address d)) (refresh_commands d)
             ++ [flush d (buffer d')] /\
    payload (flush d (buffer d'))
    = Some (repeat (Color_value color) (Z.to_nat (width * height d / 8))).
Proof.
  intros Ht Hs. unfold bind. rewrite Fill_buffer.
  set (d1 := set_buffer (repeat (Color_value color) (length (buffer d))) d).
  assert (Ht1 : typed d1).
  { destruct Ht as [A B]. split; [exact A|].
    unfold d1. cbn [buffer set_buffer]. rewrite repeat_length. exact B. }
  destruct (Update_Screen_payload d1 Ht1 Hs) as (d'&Hrun&Hc&Hp&_&Hb).
  exists d'. split; [exact Hrun|]. rewrite Hb.
  split; [exact Hc|].
  change (flush d1 (buffer d1)) with (flush d (buffer d1)) in Hp.
  rewrite Hp. f_equal. unfold d1. cbn [buffer set_buffer height].
  pose proof (refresh_size HAL d Ht Hs) as Hsz.
  rewrite (Z.mul_comm width). apply take_repeat_le. lia.
Qed.

(** X16.  On a display of height at most 64, [Draw_Image] of at least 1024
    bytes followed by [Update_Screen] transmits the image: the data block is
    the first [width * height / 8] bytes of the source, byte for byte. *)
Theorem Draw_Image_then_Update_Screen (d : t) (image : list Z) :
  typed d -> supported d ->
  buffer_size <= Z.of_nat (length image) ->
  exists d',
    (Draw_Image image ;; Update_Screen HAL) d = Some (tt, d') /\
    conn d'
    = conn d ++ map (command (address d)) (refresh_commands d)
             ++ [flush d (buffer d')] /\
    payload (flush d (buffer d'))
    = Some (take (Z.to_nat (width * height d / 8)) image).
Proof.
  intros Ht Hs Hlen. pose proof (refresh_size HAL d Ht Hs) as Hsz.
  destruct Ht as [Hh Hb]. unfold bind, Draw_Image, fault.
  unfold buffer_size in Hlen, Hb |- *. change (64 / 8 * 128) with 1024 in *.
  destruct (Z.ltb_spec (Z.of_nat (length image)) 1024) as [|_]; [lia|].
  rewrite drop_ge, app_nil_r by lia.
  set (d1 := set_buffer (take (Z.to_nat 1024) image) d).
  assert (Ht1 : typed d1).
  { split; [exact Hh|]. unfold d1. cbn [buffer set_buffer].
    rewrite length_take. unfold buffer_size.
    change (64 / 8 * 128) with 1024. lia. }
  destruct (Update_Screen_payload d1 Ht1 Hs) as (d'&Hrun&Hc&Hp&_&Hb').
  exists d'. split; [exact Hrun|]. rewrite Hb'.
  split; [exact Hc|].
  change (flush d1 (buffer d1)) with (flush d (buffer d1)) in Hp.
  rewrite Hp. f_equal. unfold d1. cbn [buffer set_buffer height].
  rewrite take_take. f_equal.
  rewrite (Z.mul_comm width). rewrite Hb in Hsz. lia.
Qed.

(** *** What [last_error] holds *)

Lemma latched_latest_failure (ss : list Z) (e : Z) :
  latched ss e = latest_failure ss e.
Proof.
  induction ss as [|s ss IH] using rev_ind; [reflexivity|].
  rewrite latched_app. unfold latest_failure. rewrite List.filter_app.
  cbn [latched fold_left List.filter]. unfold latch.
  destruct (Z.eqb_spec s 0) as [Hs|Hs]; cbn [negb].
  - rewrite app_nil_r. exact IH.
  - rewrite List.last_last. reflexivity.
Qed.

(** X17.  On a display of height at most 64, every member function other
    than [Clean_Errors] only appends transfers to those already made, and
    when it returns [last_error] holds the status of the last of its
    transfers that was answered with a nonzero status, or its previous value
    when all were answered with 0: a later failure overwrites an earlier
    one, a later success does not. *)
Theorem last_error_is_latest_failure (op : Operation) (d d' : t) (u : unit) :
  supported d ->
  op <> Call_Clean_Errors ->
  call HAL op d = Some (u, d') ->
  exists trs,
    conn d' = conn d ++ trs /\
    last_error d'
    = latest_failure (answers HAL (conn d) trs) (last_error d).
Proof.
  intros _ Hne Hrun.
  destruct (is_local op) eqn:Hop.
  - exists []. rewrite app_nil_r.
    apply (keeps_local (fun e => conn e = conn d /\
                                 last_error e = last_error d))
      with (hal := HAL) (op := op) (d := d) (a := u);
      try assumption.
    + intros e v _ H. exact H.
    + intros e v H. exact H.
    + intros e v H. exact H.
    + intros image e [] e' Hi H. unfold Draw_Image, fault in Hi.
      destruct (Z.of_nat (length image) <? buffer_size); [discriminate|].
      injection Hi as <-. exact H.
    + split; reflexivity.
  - destruct (control_bytes op) as [bytes|] eqn:Hc.
    + rewrite (call_control op bytes d Hc) in Hrun.
      apply returned_object in Hrun. subst d'.
      exists (map (command (address d)) bytes).
      destruct (sent_all_members HAL bytes d) as (H1&_).
      split; [exact H1|].
      rewrite sent_all_latched. apply latched_latest_failure.
    + rewrite (call_bus op d Hop Hc) in Hrun.
      destruct op; try discriminate Hrun; try (contradiction Hne; reflexivity);
        apply returned_object in Hrun; subst d'.
      * destruct (initialized_state_latched d) as (G1&G2).
        eexists. cbn [conn last_error set_isinitialized].
        split; [exact G1|]. rewrite G2. apply latched_latest_failure.
      * exists (map (command (address d)) (refresh_commands d)
                ++ [flush d (buffer d)]).
        set (d1 := sent_all HAL (refresh_commands d) d).
        destruct (sent_all_members HAL (refresh_commands d) d)
          as (A1&_&_&A4&_). fold d1 in A1, A4.
        destruct (transferred_members HAL control_b_data (buffer d)
                    (height d * width / 8) d1) as (B1&_).
        split.
        -- rewrite B1, A1, A4, <- app_assoc. reflexivity.
        -- rewrite transferred_latched. unfold d1 at 3.
           rewrite sent_all_latched. fold d1. rewrite A1, A4.
           rewrite <- latched_latest_failure, answers_app, latched_app.
           reflexivity.
      * exists [command (address d) command0].
        destruct (transferred_members HAL control_b_command [command0] 1 d)
          as (B1&_).
        split; [exact B1|].
        unfold sent. rewrite transferred_latched.
        apply latched_latest_failure.
      * exists [flush d data0].
        destruct (transferred_members HAL control_b_data data0
                    (height d * width / 8) d) as (B1&_).
        split; [exact B1|].
        rewrite transferred_latched. apply latched_latest_failure.
Qed.

(** *** The page window and the data block *)

(** X18.  For a height from 8 to 64, [Update_Screen] opens the window of
    columns 0 to 127 and pages 0 to [p] and then sends one block; the block
    has exactly as many bytes as the window, [128 * (p + 1)], if and only
    if the height is a multiple of 8. *)
Theorem Update_Screen_block_fills_window (d : t) :
  8 <= height d <= 64 ->
  exists d' p block,
    Update_Screen HAL d = Some (tt, d') /\
    conn d'
    = conn d ++ map (command (address d)) [0x21; 0x00; 127; 0x22; 0x00; p]
             ++ [block] /\
    (Size block = (127 - 0 + 1) * (p - 0 + 1) <-> height d mod 8 = 0).
Proof.
  intros Hh.
  exists (transferred HAL control_b_data (buffer d) (height d * width / 8)
            (sent_all HAL (refresh_commands d) d)),
         (u8 (height d / 8 - 1)), (flush d (buffer d)).
  split; [apply Update_Screen_steps|].
  destruct (sent_all_members HAL (refresh_commands d) d) as (A1&_&_&A4&_).
  destruct (transferred_members HAL control_b_data (buffer d)
              (height d * width / 8) (sent_all HAL (refresh_commands d) d))
    as (B1&_).
  split.
  - rewrite B1, A1, A4, <- app_assoc. reflexivity.
  - unfold flush. cbn [Size]. unfold width.
    rewrite u8_small by (unfold is_u8; split;
                         [apply Z.le_0_sub, (Z.div_le_lower_bound _ 8 1); lia
                         |pose proof (Z.div_le_upper_bound (height d) 8 8);
                          lia]).
    rewrite (Z.mod_eq (height d) 8) by lia.
    pose proof (Z.mul_div_le (height d) 8 ltac:(lia)) as Hle.
    pose proof (Z.div_mul (height d / 8 * 16) 8 ltac:(lia)) as Hd.
    split.
    + intros E.
      assert (E2 : height d * 128 / 8 = (height d / 8) * 128) by lia.
      assert (E3 : height d * 128 / 8 = height d * 16).
      { replace (height d * 128) with (height d * 16 * 8) by lia.
        apply Z.div_mul. lia. }
      lia.
    + intros E.
      assert (E1 : height d = 8 * (height d / 8)) by lia.
      rewrite E1 at 1.
      replace (8 * (height d / 8) * 128) with (height d / 8 * 128 * 8) by lia.
      rewrite Z.div_mul by lia. lia.
Qed.

End More_protocol.

(** ** The layout of the framebuffer *)

(** X19.  The addressing of [Draw_Pixel] pairs the 128 x 64 pixels with
    the 8 x 1024 bits of the buffer one to one: two pixels with the same
    byte and the same bit are the same pixel, and every bit of every byte
    belongs to a pixel of the 128 x 64 grid. *)
Theorem pixel_bits_one_to_one :
  (forall x y x' y',
      0 <= x < width -> 0 <= x' < width -> 0 <= y -> 0 <= y' ->
      pixel_index x y = pixel_index x' y' -> y mod 8 = y' mod 8 ->
      x = x' /\ y = y') /\
  (forall j k,
      0 <= j < buffer_size -> 0 <= k < 8 ->
      exists x y,
        0 <= x < width /\ 0 <= y < 64 /\
        pixel_index x y = j /\ y mod 8 = k).
Proof.
  unfold pixel_index, buffer_size, width. change (64 / 8 * 128) with 1024.
  split.
  - intros x y x' y' Hx Hx' Hy Hy' Hi Hm.
    pose proof (Z.div_mod y 8 ltac:(lia)) as Ey.
    pose proof (Z.div_mod y' 8 ltac:(lia)) as Ey'.
    pose proof (Z.div_pos y 8 Hy ltac:(lia)) as Py.
    pose proof (Z.div_pos y' 8 Hy' ltac:(lia)) as Py'.
    assert (Hq : y / 8 = y' / 8) by lia.
    split; lia.
  - intros j k Hj Hk.
    exists (j mod 128), (8 * (j / 128) + k).
    pose proof (Z.mod_pos_bound j 128 ltac:(lia)) as Hm.
    pose proof (Z.div_mod j 128 ltac:(lia)) as Ej.
    pose proof (Z.div_pos j 128 ltac:(lia) ltac:(lia)) as Pj.
    pose proof (Z.div_lt_upper_bound j 128 8 ltac:(lia) ltac:(lia)) as Uj.
    assert (Hq : (8 * (j / 128) + k) / 8 = j / 128).
    { rewrite Z.mul_comm, Z.div_add_l by lia.
      rewrite (Z.div_small k 8) by lia. lia. }
    assert (Hr : (8 * (j / 128) + k) mod 8 = k).
    { rewrite Z.mul_comm, Z.add_comm, Z.mod_add by lia.
      apply Z.mod_small. lia. }
    split; [exact Hm|]. split; [lia|]. split; [rewrite Hq; lia | exact Hr].
Qed.

(** ** The extra theorems at concrete displays *)

Lemma Draw_Square_draws_border_witness :
  typed oled64 /\ supported oled64 /\
  0 <= 2 <= 10 /\ 10 < 255 /\ 0 <= 3 <= 12 /\ 12 < 255 /\
  exists d',
    Draw_Square 2 3 10 12 WHITE oled64 = Some (tt, d') /\
    same_but_buffer oled64 d' /\
    read_pixel d' 10 7 = Some true.
Proof.
  assert (Ht : typed oled64) by evaluated.
  assert (Hs : supported oled64) by evaluated.
  assert (Hx : 0 <= 2 <= 10) by (split; discriminate).
  assert (Hx2 : 10 < 255) by reflexivity.
  assert (Hy : 0 <= 3 <= 12) by (split; discriminate).
  assert (Hy2 : 12 < 255) by reflexivity.
  split; [exact Ht|]. split; [exact Hs|]. split; [exact Hx|].
  split; [exact Hx2|]. split; [exact Hy|]. split; [exact Hy2|].
  destruct (Draw_Square_draws_border oled64 2 3 10 12 WHITE
              Ht Hs Hx Hx2 Hy Hy2) as (d'&Hrun&Hsame&Hin&_).
  exists d'. split; [exact Hrun|]. split; [exact Hsame|].
  apply (Hin 10 7).
  - right. split; [right; reflexivity | split; discriminate].
  - split; [discriminate | reflexivity].
  - split; [discriminate | reflexivity].
Defined.

Lemma Draw_Waveform_plots_samples_witness :
  typed oled64 /\ supported oled64 /\ is_u8 0 /\ is_u8 20 /\
  0 <= 3 <= Z.of_nat (length [1; 2; 3]) /\ 0 + 3 <= 256 /\
  (forall i, 0 <= i < 3 -> 0 <= nth (Z.to_nat i) [1; 2; 3] 0 <= 20) /\
  exists d',
    Draw_Waveform 0 20 [1; 2; 3] 3 WHITE oled64 = Some (tt, d') /\
    drawn oled64 d' (waveform_calls (fun z => z) 0 20 [1; 2; 3] 3 WHITE).
Proof.
  assert (Ht : typed oled64) by evaluated.
  assert (Hs : supported oled64) by evaluated.
  assert (Hx : is_u8 0) by (split; discriminate || reflexivity).
  assert (Hy : is_u8 20) by (split; discriminate || reflexivity).
  assert (Hn : 0 <= 3 <= Z.of_nat (length [1; 2; 3])) by (split; discriminate).
  assert (Hw : 0 + 3 <= 256) by discriminate.
  assert (Hb : forall i, 0 <= i < 3 ->
                         0 <= nth (Z.to_nat i) [1; 2; 3] 0 <= 20).
  { intros i Hi. assert (Hc : i = 0 \/ i = 1 \/ i = 2) by lia.
    destruct Hc as [->|[->| ->]]; split; discriminate. }
  split; [exact Ht|]. split; [exact Hs|]. split; [exact Hx|].
  split; [exact Hy|]. split; [exact Hn|]. split; [exact Hw|].
  split; [exact Hb|].
  apply (Draw_Waveform_plots_samples oled64 0 20 [1; 2; 3] 3 WHITE
           Ht Hs Hx Hy Hn Hw Hb).
Defined.

Lemma Draw_Waveform_reads_past_samples_witness :
  typed oled64 /\ supported oled64 /\
  Z.of_nat (length [1; 2]) < 3 /\
  Draw_Waveform 0 20 [1; 2] 3 WHITE oled64 = None.
Proof.
  assert (Ht : typed oled64) by evaluated.
  assert (Hs : supported oled64) by evaluated.
  assert (Hn : Z.of_nat (length [1; 2]) < 3) by reflexivity.
  split; [exact Ht|]. split; [exact Hs|]. split; [exact Hn|].
  apply (Draw_Waveform_reads_past_samples oled64 0 20 [1; 2] 3 WHITE
           Ht Hs Hn).
Defined.

Lemma Write_String_advances_cursor_witness :
  typed oled64 /\ supported oled64 /\
  is_u8 (FontWidth (font oled64)) /\ is_u8 (FontHeight (font oled64)) /\
  is_u8 (X (Coordinates oled64)) /\
  Forall (fun c => c <> 0 /\ glyph_present (font oled64) c) [56; 56] /\
  exists d',
    Write_String [56; 56] oled64 = Some (tt, d') /\
    X (Coordinates d') = 14.
Proof.
  assert (Ht : typed oled64) by evaluated.
  assert (Hs : supported oled64) by evaluated.
  assert (Hw : is_u8 (FontWidth (font oled64))) by evaluated.
  assert (Hh : is_u8 (FontHeight (font oled64))) by evaluated.
  assert (Hx : is_u8 (X (Coordinates oled64))) by evaluated.
  assert (Hg : Forall (fun c => c <> 0 /\ glyph_present (font oled64) c)
                      [56; 56]).
  { repeat constructor; first [discriminate | exact font_eight_present]. }
  split; [exact Ht|]. split; [exact Hs|]. split; [exact Hw|].
  split; [exact Hh|]. split; [exact Hx|]. split; [exact Hg|].
  destruct (Write_String_advances_cursor oled64 [56; 56] Ht Hs Hw Hh Hx Hg
              Write_String (or_introl eq_refl)) as (d'&Hrun&HX&_).
  exists d'. split; [exact Hrun|]. rewrite HX. reflexivity.
Defined.

Lemma control_functions_send_commands_only_witness :
  control_bytes (Call_Set_Brightness 150) = Some [0x81; 150] /\
  exists d',
    call busy_bus (Call_Set_Brightness 150) oled64 = Some (tt, d') /\
    conn d' = conn oled64 ++ map (command (address oled64)) [0x81; 150] /\
    screen_state_kept oled64 d'.
Proof.
  assert (Hc : control_bytes (Call_Set_Brightness 150) = Some [0x81; 150])
    by reflexivity.
  split; [exact Hc|].
  apply (control_functions_send_commands_only busy_bus
           (Call_Set_Brightness 150) [0x81; 150] oled64 Hc).
Defined.

Lemma member_functions_keep_shape_witness :
  typed oled64 /\
  call quiet_bus Call_Initialize oled64
  = Some (tt, after (call quiet_bus Call_Initialize) oled64) /\
  typed (after (call quiet_bus Call_Initialize) oled64).
Proof.
  assert (Ht : typed oled64) by evaluated.
  assert (Hrun : call quiet_bus Call_Initialize oled64
                 = Some (tt, after (call quiet_bus Call_Initialize) oled64))
    by (vm_compute; reflexivity).
  split; [exact Ht|]. split; [exact Hrun|].
  apply (member_functions_keep_shape quiet_bus Call_Initialize oled64 _ tt
           Ht Hrun).
Defined.

Lemma Initialize_after_Clean_Errors_witness :
  (forall l a m n p s w, quiet_bus l a m n p s w = 0) /\
  last_error oled72 = 0xff /\
  exists d',
    (Clean_Errors ;; Initialize quiet_bus) oled72 = Some (true, d') /\
    isinitialized d' = true /\
    last_error d' = 0 /\
    height d' = height oled72.
Proof.
  assert (Hq : forall l a m n p s w, quiet_bus l a m n p s w = 0)
    by (intros; reflexivity).
  split; [exact Hq|]. split; [reflexivity|].
  apply (Initialize_after_Clean_Errors quiet_bus oled72 Hq).
Defined.

Lemma Fill_then_Update_Screen_witness :
  typed oled64 /\ supported oled64 /\
  exists d',
    (Fill WHITE ;; Update_Screen quiet_bus) oled64 = Some (tt, d') /\
    payload (flush oled64 (buffer d')) = Some (repeat 0xff 1024).
Proof.
  assert (Ht : typed oled64) by evaluated.
  assert (Hs : supported oled64) by evaluated.
  split; [exact Ht|]. split; [exact Hs|].
  destruct (Fill_then_Update_Screen quiet_bus oled64 WHITE Ht Hs)
    as (d'&Hrun&_&Hp).
  exists d'. split; [exact Hrun|]. exact Hp.
Defined.

Lemma Draw_Image_then_Update_Screen_witness :
  typed oled64 /\ supported oled64 /\
  buffer_size <= Z.of_nat (length (repeat 0x5a 1030)) /\
  exists d',
    (Draw_Image (repeat 0x5a 1030) ;; Update_Screen quiet_bus) oled64
    = Some (tt, d') /\
    payload (flush oled64 (buffer d')) = Some (repeat 0x5a 1024).
Proof.
  assert (Ht : typed oled64) by evaluated.
  assert (Hs : supported oled64) by evaluated.
  assert (Hl : buffer_size <= Z.of_nat (length (repeat 0x5a 1030)))
    by (vm_compute; discriminate).
  split; [exact Ht|]. split; [exact Hs|]. split; [exact Hl|].
  destruct (Draw_Image_then_Update_Screen quiet_bus oled64
              (repeat 0x5a 1030) Ht Hs Hl) as (d'&Hrun&_&Hp).
  exists d'. split; [exact Hrun|]. rewrite Hp. reflexivity.
Defined.

Lemma last_error_is_latest_failure_witness :
  supported oled64 /\
  Call_Update_Screen <> Call_Clean_Errors /\
  call busy_bus Call_Update_Screen oled64
  = Some (tt, after (call busy_bus Call_Update_Screen) oled64) /\
  exists trs,
    conn (after (call busy_bus Call_Update_Screen) oled64)
    = conn oled64 ++ trs /\
    last_error (after (call busy_bus Call_Update_Screen) oled64)
    = latest_failure (answers busy_bus (conn oled64) trs)
                     (last_error oled64).
Proof.
  assert (Hne : Call_Update_Screen <> Call_Clean_Errors) by discriminate.
  assert (Hrun : call busy_bus Call_Update_Screen oled64
                 = Some (tt, after (call busy_bus Call_Update_Screen) oled64))
    by (vm_compute; reflexivity).
  assert (Hs : supported oled64) by evaluated.
  split; [exact Hs|]. split; [exact Hne|]. split; [exact Hrun|].
  apply (last_error_is_latest_failure busy_bus Call_Update_Screen oled64
           _ tt Hs Hne Hrun).
Defined.

Lemma Update_Screen_block_fills_window_witness :
  8 <= height oled32 <= 64 /\
  exists d' p block,
    Update_Screen quiet_bus oled32 = Some (tt, d') /\
    conn d'
    = conn oled32
      ++ map (command (address oled32)) [0x21; 0x00; 127; 0x22; 0x00; p]
      ++ [block] /\
    (Size block = (127 - 0 + 1) * (p - 0 + 1) <-> height oled32 mod 8 = 0).
Proof.
  assert (Hh : 8 <= height oled32 <= 64) by (split; discriminate).
  split; [exact Hh|].
  apply (Update_Screen_block_fills_window quiet_bus oled32 Hh).
Defined.

(** ** Characters the font does not hold *)

(** X20.  [Write_Char] does not check that the character is printable:
    with a font of nonzero height, a character code below 32 makes it read
    the font table before its first entry, which has no defined result, and
    so does [Write_String] or [Write_String_Inverted] of a string that
    starts with such a character (a newline, a tab). *)
Theorem Write_Char_below_space (d : t) (chr : Z) (color : Color)
    (rest : list Z) :
  0 < FontHeight (font d) -> chr < 32 ->
  Write_Char chr color d = None /\
  (chr <> 0 ->
   Write_String (chr :: rest) d = None /\
   Write_String_Inverted (chr :: rest) d = None).
Proof.
  intros Hh Hc.
  assert (Hrow : array_get (data (font d)) ((chr - 32) * FontHeight (font d) + 0)
                 = None).
  { unfold array_get.
    destruct (Z.ltb_spec ((chr - 32) * FontHeight (font d) + 0) 0) as [_|Hge];
      [reflexivity | nia]. }
  assert (Hchar : forall col, Write_Char chr col d = None).
  { intros col. unfold Write_Char, for_u8, bind at 1 2, gets at 1.
    destruct (Z.to_nat (FontHeight (font d))) as [|n] eqn:En; [lia|].
    cbn [for_from]. unfold bind at 1 2, gets at 1.
    unfold bind at 1, lift at 1. rewrite Hrow. reflexivity. }
  split; [apply Hchar|].
  intros Hz. unfold Write_String, Write_String_Inverted.
  cbn [Write_String_with].
  destruct (Z.eqb_spec chr 0) as [E|_]; [contradiction|].
  unfold bind. rewrite !Hchar. split; reflexivity.
Qed.

Lemma Write_Char_below_space_witness :
  0 < FontHeight (font oled64) /\ 10 < 32 /\
  Write_Char 10 WHITE oled64 = None /\
  Write_String [10; 56] oled64 = None.
Proof.
  assert (Hh : 0 < FontHeight (font oled64)) by reflexivity.
  assert (Hc : 10 < 32) by reflexivity.
  split; [exact Hh|]. split; [exact Hc|].
  destruct (Write_Char_below_space oled64 10 WHITE [56] Hh Hc) as [H1 H2].
  split; [exact H1|].
  apply H2. discriminate.
Defined.
